(** * Decision ledger and completeness evaluators of ai-cofounder-app

    A shallow embedding of
      - [backend/src/github/client.ts]: [makeDecision], [findDecision],
        [parseDecisionFromCommit] of [GitHubFuturesClient];
      - [backend/src/workflows/analysis-workflow.ts]: the
        [validate-completeness] step of the analysis workflow,
        [checkRequirementsComplete] and [parseAssumptions];
    together with the JavaScript built-ins and the GitHub REST calls they
    rely on, followed by the properties of the specification that concern
    them. *)

From Stdlib Require Import String Ascii List ZArith QArith Lia Bool.
From Stdlib Require Import DecimalString DecimalN.
From stdpp Require Import gmap strings.
Import ListNotations.
Close Scope Q_scope.
Open Scope string_scope.
Open Scope list_scope.

(** ** JavaScript built-ins

    Strings are sequences of code units; the model keeps the code units
    below 256 ([ascii]), which is exact for the ASCII artifacts and commit
    messages the code handles. *)

Module JS.

(** Code units removed by [trim] and skipped by [parseFloat]
    (TAB, LF, VT, FF, CR, SP, NBSP). *)
Definition isWhiteSpace (c : ascii) : bool :=
  match N_of_ascii c with
  | 9 | 10 | 11 | 12 | 13 | 32 | 160 => true
  | _ => false
  end%N.

(** Code units that [.] of a regular expression does not match. *)
Definition isLineTerminator (c : ascii) : bool :=
  match N_of_ascii c with
  | 10 | 13 => true
  | _ => false
  end%N.

Definition isDigit (c : ascii) : bool :=
  (48 <=? N_of_ascii c)%N && (N_of_ascii c <=? 57)%N.

Definition isEmpty (s : string) : bool :=
  match s with EmptyString => true | String _ _ => false end.

(** [s.startsWith(p)] *)
Definition startsWith (s p : string) : bool := String.prefix p s.

(** [s.includes(sub)] *)
Fixpoint includes (s sub : string) : bool :=
  String.prefix sub s ||
  match s with
  | EmptyString => false
  | String _ r => includes r sub
  end.

(** [s.split(sep)] for a separator of one code unit. *)
Fixpoint split (sep : ascii) (s : string) : list string :=
  match s with
  | EmptyString => [EmptyString]
  | String c r =>
      if Ascii.eqb c sep then EmptyString :: split sep r
      else match split sep r with
           | h :: t => String c h :: t
           | [] => [String c EmptyString]
           end
  end.

(** [parts.join(sep)] *)
Fixpoint join (sep : string) (parts : list string) : string :=
  match parts with
  | [] => EmptyString
  | [p] => p
  | p :: rest => p +:+ sep +:+ join sep rest
  end.

Fixpoint trimStart (s : string) : string :=
  match s with
  | EmptyString => EmptyString
  | String c r => if isWhiteSpace c then trimStart r else s
  end.

Fixpoint trimEnd (s : string) : string :=
  match s with
  | EmptyString => EmptyString
  | String c r =>
      match trimEnd r with
      | EmptyString => if isWhiteSpace c then EmptyString else String c EmptyString
      | r' => String c r'
      end
  end.

(** [s.trim()] *)
Definition trim (s : string) : string := trimEnd (trimStart s).

Definition toLowerChar (c : ascii) : ascii :=
  let n := N_of_ascii c in
  if (65 <=? n)%N && (n <=? 90)%N then ascii_of_N (n + 32) else c.

Fixpoint toLowerCase (s : string) : string :=
  match s with
  | EmptyString => EmptyString
  | String c r => String (toLowerChar c) (toLowerCase r)
  end.

(** The longest prefix of [s] whose code units satisfy [p], and the rest. *)
Fixpoint span (p : ascii -> bool) (s : string) : string * string :=
  match s with
  | EmptyString => (EmptyString, EmptyString)
  | String c r =>
      if p c then let (a, b) := span p r in (String c a, b)
      else (EmptyString, s)
  end.

(** Value of a run of decimal digits. *)
Definition digitsValue (ds : string) : N :=
  match NilEmpty.uint_of_string ds with
  | Some u => N.of_uint u
  | None => 0%N
  end.

(** Decimal digits of a natural number, ["0"] for zero. *)
Definition digitsOf (n : N) : string := NilEmpty.string_of_uint (N.to_uint n).

(** The first [n] code units of [s], and the rest. *)
Fixpoint splitAt (n : nat) (s : string) : string * string :=
  match n, s with
  | S n', String c r => let (a, b) := splitAt n' r in (String c a, b)
  | _, _ => (EmptyString, s)
  end.

(** Whether every code unit of [s] satisfies [p]. *)
Fixpoint every (p : ascii -> bool) (s : string) : bool :=
  match s with
  | EmptyString => true
  | String c r => p c && every p r
  end.

Fixpoint zeros (k : nat) : string :=
  match k with
  | O => EmptyString
  | S k' => String "0" (zeros k')
  end.

End JS.

(** ** Numbers

    A JavaScript number is modelled by the exact value it denotes: [NaN],
    an infinity, or a rational.  Arithmetic and comparisons are those of the
    rationals, so binary64 rounding is not modelled; on decimal literals of
    at most 15 significant digits, on array lengths and on their quotients
    compared with such literals the two agree.  Finite values produced by
    the model are kept in lowest terms. *)

Module Number.

Inductive number : Type :=
| NaN
| Infinity (negative : bool)
| Fin (q : Q).

Definition Qlt_bool (x y : Q) : bool := negb (Qle_bool y x).

(** [a < b] *)
Definition lt (a b : number) : bool :=
  match a, b with
  | NaN, _ | _, NaN => false
  | Fin x, Fin y => Qlt_bool x y
  | Infinity n1, Infinity n2 => n1 && negb n2
  | Infinity n, Fin _ => n
  | Fin _, Infinity n => negb n
  end.

(** [a > b] *)
Definition gt (a b : number) : bool := lt b a.

(** [a >= b] *)
Definition ge (a b : number) : bool :=
  match a, b with
  | NaN, _ | _, NaN => false
  | Fin x, Fin y => Qle_bool y x
  | Infinity n1, Infinity n2 => negb n1 || n2
  | Infinity n, Fin _ => negb n
  | Fin _, Infinity n => n
  end.

(** [a / b] for two array lengths. *)
Definition divLengths (a b : nat) : number :=
  match b with
  | O => match a with O => NaN | S _ => Infinity false end
  | S _ => Fin (Qred (Z.of_nat a # Pos.of_nat b))
  end.


(** [m * 10^e] *)
Definition scale (m e : Z) : Q :=
  if (0 <=? e)%Z then (m * 10 ^ e)%Z # 1
  else m # Z.to_pos (10 ^ (- e)).

Definition signed (neg : bool) (m : N) : Z :=
  if neg then (- Z.of_N m)%Z else Z.of_N m.

(** An optional sign in front of [s]. *)
Definition readSign (s : string) : bool * string :=
  match s with
  | String "-" r => (true, r)
  | String "+" r => (false, r)
  | _ => (false, s)
  end.

(** The exponent part [e[+-]digits] in front of [s], [0] when there is none. *)
Definition exponentPart (s : string) : Z :=
  match s with
  | String c r =>
      if Ascii.eqb c "e" || Ascii.eqb c "E" then
        let (neg, r') := readSign r in
        let (ds, _) := JS.span JS.isDigit r' in
        if JS.isEmpty ds then 0%Z else signed neg (JS.digitsValue ds)
      else 0%Z
  | EmptyString => 0%Z
  end.

(** [parseFloat(s)]: leading white space is skipped, the longest prefix
    that is a decimal literal is read, [NaN] when there is none. *)
Definition parseFloat (s : string) : number :=
  let (neg, s1) := readSign (JS.trimStart s) in
  if JS.startsWith s1 "Infinity" then Infinity neg
  else
    let (ip, s2) := JS.span JS.isDigit s1 in
    let (fp, s3) :=
      match s2 with
      | String "." r => JS.span JS.isDigit r
      | _ => (EmptyString, s2)
      end in
    if JS.isEmpty ip && JS.isEmpty fp then NaN
    else Fin (Qred (scale (signed neg (JS.digitsValue (ip +:+ fp)))
                          (exponentPart s3 - Z.of_nat (String.length fp)))).

(** The shortest decimal expansion [m / 10^k] of a non-negative rational
    [n / d], searched for [k] up to [fuel]. *)
Fixpoint decimalFrom (fuel k : nat) (n : N) (d : positive) : option (N * nat) :=
  let p := (10 ^ N.of_nat k)%N in
  if (p mod Npos d =? 0)%N then Some ((n * (p / Npos d))%N, k)
  else match fuel with
       | O => None
       | S fuel' => decimalFrom fuel' (S k) n d
       end.

Definition decimalOf (q : Q) : option (N * nat) :=
  let r := Qred q in
  decimalFrom 20 0 (Z.abs_N (Qnum r)) (Qden r).

Fixpoint stripZeros (ds : list ascii) : list ascii :=
  match ds with
  | [] => []
  | c :: r =>
      match stripZeros r with
      | [] => if Ascii.eqb c "0" then [] else [c]
      | r' => c :: r'
      end
  end.

(** Whether [Number::toString] writes [m / 10^k] without an exponent:
    the position [n] of the decimal point satisfies [-6 < n <= 21]. *)
Definition positional (m : N) (k : nat) : bool :=
  let len := String.length (JS.digitsOf m) in
  ((len - k <=? 21) && (k - len <? 6))%nat.

Definition printPositional (m : N) (k : nat) : string :=
  let ds := JS.digitsOf m in
  let len := String.length ds in
  match k with
  | O => ds
  | S _ =>
      if (k <? len)%nat then
        let (ip, fp) := JS.splitAt (len - k) ds in ip +:+ "." +:+ fp
      else "0." +:+ JS.zeros (k - len) +:+ ds
  end.

Definition printExponent (m : N) (k : nat) : string :=
  let ds := string_of_list_ascii (stripZeros (list_ascii_of_string (JS.digitsOf m))) in
  let e := (Z.of_nat (String.length (JS.digitsOf m)) - Z.of_nat k - 1)%Z in
  let mant :=
    match ds with
    | String c EmptyString => ds
    | String c r => String c ("." +:+ r)
    | EmptyString => ds
    end in
  mant +:+ "e" +:+ (if (0 <=? e)%Z then "+" else "-") +:+ JS.digitsOf (Z.abs_N e).

(** [String(x)], as a template literal renders a number.  A rational
    without a decimal expansion of at most 20 fractional digits is
    rendered through its expansion cut at 17 fractional digits. *)
Definition toString (x : number) : string :=
  match x with
  | NaN => "NaN"
  | Infinity neg => if neg then "-Infinity" else "Infinity"
  | Fin q =>
      let sign := if Qlt_bool q 0 then "-" else "" in
      let (m, k) :=
        match decimalOf q with
        | Some mk => mk
        | None =>
            let r := Qred q in
            ((Z.abs_N (Qnum r) * 10 ^ 17 / Npos (Qden r))%N, 17)
        end in
      sign +:+ (if positional m k then printPositional m k else printExponent m k)
  end.


End Number.
Export Number(number, NaN, Infinity, Fin).

(** ** The versioned store

    The GitHub REST calls made through Octokit by [makeDecision] and
    [findDecision], over the state of the owner's repositories.  Each call
    is one atomic step on the store. *)

Module GitHub.

Inductive Error : Type :=
| StoreUnavailable   (* the request did not reach the store *)
| NotFound           (* 404 *)
| Conflict.          (* 409: the blob sha sent does not match *)

(** [c.commit.message] is all the code reads of a commit. *)
Record Commit := { message : string }.

(** The response of [repos.getContent] for a file; [content] stands for
    the text that [Buffer.from(content, 'base64').toString()] decodes. *)
Record FileData := { content : string; sha : string }.

(** A branch: its commits, newest first, and the files at its head. *)
Record BranchState := {
  commits : list Commit;
  files : gmap string string
}.

Record Repository := {
  default_branch : string;
  branches : gmap string BranchState
}.

(** [faults] schedules the outcome of the coming store calls: a call
    consumes the head, and fails with [e] when the head is [Some e]. *)
Record World := {
  repos : gmap string Repository;
  faults : list (option Error)
}.

(** A blob sha identifies the content of a file; the model takes the
    ideal, collision-free hash. *)
Definition blobSha (text : string) : string := text.

(** The calls, indexed by the type of their response data. *)
Inductive Request : Type -> Type :=
| ListCommits (repo : string) (per_page : nat) : Request (list Commit)
| GetContent (repo path ref : string) : Request FileData
| CreateOrUpdateFileContents
    (repo path message content branch sha : string) : Request unit.

(** [GET /repos/{owner}/{repo}/commits] without [sha]: the first page of
    the commits of the default branch, newest first. *)
Definition listCommits (repo : string) (per_page : nat) (w : World)
  : Error + list Commit :=
  match repos w !! repo with
  | None => inl NotFound
  | Some r =>
      match branches r !! default_branch r with
      | None => inl NotFound
      | Some b => inr (take per_page (commits b))
      end
  end.

(** [GET /repos/{owner}/{repo}/contents/{path}?ref=] *)
Definition getContent (repo path ref : string) (w : World) : Error + FileData :=
  match repos w !! repo with
  | None => inl NotFound
  | Some r =>
      match branches r !! ref with
      | None => inl NotFound
      | Some b =>
          match files b !! path with
          | None => inl NotFound
          | Some text => inr {| content := text; sha := blobSha text |}
          end
      end
  end.

(** [PUT /repos/{owner}/{repo}/contents/{path}] with the [sha] of the blob
    being replaced: one new commit on [branch] when [sha] is the sha of
    the file at the head of [branch], [Conflict] otherwise. *)
Definition createOrUpdateFileContents
    (repo path msg text branch sha : string) (w : World) : Error + World :=
  match repos w !! repo with
  | None => inl NotFound
  | Some r =>
      match branches r !! branch with
      | None => inl NotFound
      | Some b =>
          match files b !! path with
          | Some old =>
              if String.eqb (blobSha old) sha then
                let b' := {| commits := {| message := msg |} :: commits b;
                             files := <[path := text]> (files b) |} in
                let r' := {| default_branch := default_branch r;
                             branches := <[branch := b']> (branches r) |} in
                inr {| repos := <[repo := r']> (repos w); faults := faults w |}
              else inl Conflict
          | None => inl Conflict
          end
      end
  end.

Definition serve {R : Type} (req : Request R) (w : World) : (Error + R) * World :=
  match req in Request R return (Error + R) * World with
  | ListCommits repo per_page => (listCommits repo per_page w, w)
  | GetContent repo path ref => (getContent repo path ref w, w)
  | CreateOrUpdateFileContents repo path msg text branch sha =>
      match createOrUpdateFileContents repo path msg text branch sha w with
      | inl e => (inl e, w)
      | inr w' => (inr tt, w')
      end
  end.

Definition perform {R : Type} (req : Request R) (w : World) : (Error + R) * World :=
  match faults w with
  | [] => serve req w
  | None :: rest => serve req {| repos := repos w; faults := rest |}
  | Some e :: rest => (inl e, {| repos := repos w; faults := rest |})
  end.

(** The commits of a branch, newest first ([[]] for an unknown branch). *)
Definition history (w : World) (repo branch : string) : list Commit :=
  match repos w !! repo with
  | None => []
  | Some r =>
      match branches r !! branch with
      | None => []
      | Some b => commits b
      end
  end.

End GitHub.
Export GitHub(Error, StoreUnavailable, NotFound, Conflict, Commit, World, Request,
              ListCommits, GetContent, CreateOrUpdateFileContents).

(** ** Asynchronous functions

    An [async] function is a tree of store calls: it returns, throws, or
    awaits a call and continues with its outcome.  A rejected call is
    handed to the continuation as [inl e], so that [try]/[catch] around an
    [await] can be written. *)

Inductive Async (A : Type) : Type :=
| Return (a : A)
| Throw (e : Error)
| Await {R : Type} (req : Request R) (k : Error + R -> Async A).

Arguments Return {A} a.
Arguments Throw {A} e.
Arguments Await {A R} req k.

(** [await octokit.call(...)]: a rejection is thrown. *)
Definition await {R : Type} (req : Request R) : Async R :=
  Await req (fun r => match r with inl e => Throw e | inr x => Return x end).

Fixpoint bind {A B : Type} (m : Async A) (f : A -> Async B) : Async B :=
  match m with
  | Return a => f a
  | Throw e => Throw e
  | Await req k => Await req (fun r => bind (k r) f)
  end.

(** [try { m } catch { h }] *)
Fixpoint catch {A : Type} (m : Async A) (h : Error -> Async A) : Async A :=
  match m with
  | Return a => Return a
  | Throw e => h e
  | Await req k => Await req (fun r => catch (k r) h)
  end.

Notation "x <- m ;; f" := (bind m (fun x => f))
  (at level 100, m at next level, right associativity).

(** Running a call to completion, alone on the store. *)
Fixpoint run {A : Type} (m : Async A) (w : World) : (Error + A) * World :=
  match m with
  | Return a => (inr a, w)
  | Throw e => (inl e, w)
  | Await req k => let (r, w') := GitHub.perform req w in run (k r) w'
  end.





(** ** [GitHubFuturesClient]: decisions as commits *)

Definition LF : ascii := "010"%char.
Definition NL : string := String LF EmptyString.

(** The [decision] argument of [makeDecision]. *)
Record Decision := {
  name : string;
  type : string;
  alternatives : list string;
  chosen : string;
  reason : string;
  confidence : number;
  revisitProbability : number
}.

(** The object built by [parseDecisionFromCommit]: each property is set
    only when a line of the message carries its label. *)
Record ParsedDecision := {
  parsed_type : option string;
  parsed_chosen : option string;
  parsed_confidence : option number;
  parsed_revisitProbability : option number
}.

Definition emptyParsed : ParsedDecision :=
  {| parsed_type := None; parsed_chosen := None;
     parsed_confidence := None; parsed_revisitProbability := None |}.

(** [line.split(':')[1]]; every line it is applied to starts with a label
    that ends in a colon, so the element exists. *)
Definition afterColon (line : string) : string :=
  nth 1 (JS.split ":" line) EmptyString.

(** The body of the loop of [parseDecisionFromCommit]. *)
Definition parseLine (decision : ParsedDecision) (line : string) : ParsedDecision :=
  if JS.startsWith line "Decision Type:" then
    {| parsed_type := Some (JS.trim (afterColon line));
       parsed_chosen := parsed_chosen decision;
       parsed_confidence := parsed_confidence decision;
       parsed_revisitProbability := parsed_revisitProbability decision |}
  else if JS.startsWith line "Chosen:" then
    {| parsed_type := parsed_type decision;
       parsed_chosen := Some (JS.trim (afterColon line));
       parsed_confidence := parsed_confidence decision;
       parsed_revisitProbability := parsed_revisitProbability decision |}
  else if JS.startsWith line "Confidence:" then
    {| parsed_type := parsed_type decision;
       parsed_chosen := parsed_chosen decision;
       parsed_confidence := Some (Number.parseFloat (afterColon line));
       parsed_revisitProbability := parsed_revisitProbability decision |}
  else if JS.startsWith line "Revisit Probability:" then
    {| parsed_type := parsed_type decision;
       parsed_chosen := parsed_chosen decision;
       parsed_confidence := parsed_confidence decision;
       parsed_revisitProbability := Some (Number.parseFloat (afterColon line)) |}
  else decision.

Definition parseDecisionFromCommit (message : string) : ParsedDecision :=
  fold_left parseLine (JS.split LF message) emptyParsed.

(** The template literal [commitMessage] of [makeDecision]; [now] is the
    value of [new Date().toISOString()] at the call. *)
Definition commitMessage (now : string) (decision : Decision) : string :=
  "decision: " +:+ name decision +:+ NL +:+
  NL +:+
  "Decision Type: " +:+ type decision +:+ NL +:+
  "Alternatives Considered: " +:+ JS.join ", " (alternatives decision) +:+ NL +:+
  "Chosen: " +:+ chosen decision +:+ NL +:+
  "Reason: " +:+ reason decision +:+ NL +:+
  "Confidence: " +:+ Number.toString (confidence decision) +:+ NL +:+
  "Revisit Probability: " +:+ Number.toString (revisitProbability decision) +:+ NL +:+
  "Timestamp: " +:+ now +:+ NL.

(** [findDecision]: one [listCommits] call of 100 commits, the first commit
    whose message includes [decision: <name>], and [null] on any error. *)
Definition findDecision (repoName decisionName : string) : Async (option ParsedDecision) :=
  catch
    (commits <- await (ListCommits repoName 100) ;;
     match List.find (fun c => JS.includes (GitHub.message c) ("decision: " +:+ decisionName)) commits with
     | Some decisionCommit =>
         Return (Some (parseDecisionFromCommit (GitHub.message decisionCommit)))
     | None => Return None
     end)
    (fun _ => Return None).

(** What [makeDecision] returns: [existing] or [decision]. *)
Inductive Outcome : Type :=
| Existing (existing : ParsedDecision)
| Made (decision : Decision).

(** The statements of [makeDecision] after the check of [existing]: read
    [DECISIONS.log] on [branch], append the record, and commit it with
    the sha that was read. *)
Definition appendDecision (now repoName branch : string) (decision : Decision) : Async Outcome :=
  let commitMessage := commitMessage now decision in
  currentFile <- await (GetContent repoName "DECISIONS.log" branch) ;;
  let currentContent := GitHub.content currentFile in
  let newContent := currentContent +:+ NL +:+ commitMessage +:+ NL +:+ "---" +:+ NL in
  _ <- await (CreateOrUpdateFileContents repoName "DECISIONS.log" commitMessage
                newContent branch (GitHub.sha currentFile)) ;;
  Return (Made decision).

Definition makeDecision (now repoName branch : string) (decision : Decision) : Async Outcome :=
  existing <- findDecision repoName (name decision) ;;
  match existing with
  | Some found =>
      if Number.lt (revisitProbability decision) (Fin (7 # 10)) then Return (Existing found)
      else appendDecision now repoName branch decision
  | None => appendDecision now repoName branch decision
  end.

(** ** Completeness evaluators *)

(** Regular expressions of the evaluators. *)
Module Regex.

Fixpoint stripPrefix (p s : string) : option string :=
  match p, s with
  | EmptyString, _ => Some s
  | String a p', String b s' => if Ascii.eqb a b then stripPrefix p' s' else None
  | String _ _, EmptyString => None
  end.

Definition isCriticalityChar (c : ascii) : bool :=
  JS.isDigit c || Ascii.eqb c ".".

(** [line.match(/criticality: ([0-9.]+)/)]: the capture of the leftmost
    match, [None] when the expression does not match. *)
Fixpoint matchCriticality (line : string) : option string :=
  let here :=
    match stripPrefix "criticality: " line with
    | Some rest =>
        let (capture, _) := JS.span isCriticalityChar rest in
        if JS.isEmpty capture then None else Some capture
    | None => None
    end in
  match here with
  | Some capture => Some capture
  | None =>
      match line with
      | EmptyString => None
      | String _ r => matchCriticality r
      end
  end.

(** The maximal runs of [s] without a line terminator. *)
Fixpoint dotLines (s : string) : list string :=
  match s with
  | EmptyString => [EmptyString]
  | String c r =>
      if JS.isLineTerminator c then EmptyString :: dotLines r
      else match dotLines r with
           | h :: t => String c h :: t
           | [] => [String c EmptyString]
           end
  end.

(** Whether [/<hashes>.*<word>/] matches inside [line]: [hashes] occurs
    and [word] occurs after it. *)
Fixpoint matchesDotStar (hashes word line : string) : bool :=
  match stripPrefix hashes line with
  | Some rest => JS.includes rest word
  | None => false
  end ||
  match line with
  | EmptyString => false
  | String _ r => matchesDotStar hashes word r
  end.

(** [(s.match(/<hashes>.*<word>/g) || []).length].  [.] does not cross a
    line terminator and [.*] is greedy, so a match runs to the last
    [word] of its line: there is one match for each line in which the
    expression matches. *)
Definition countDotStar (hashes word s : string) : nat :=
  length (List.filter (fun line => matchesDotStar hashes word line) (dotLines s)).

(** [(s.match(/###/g) || []).length]: occurrences found from left to
    right, each search resuming after the previous match. *)
Fixpoint countTripleHash (s : string) : nat :=
  match s with
  | String "#" (String "#" (String "#" r)) => S (countTripleHash r)
  | String _ r => countTripleHash r
  | EmptyString => 0
  end.

End Regex.

(** The [validate-completeness] step of the [analysis-phase] workflow. *)
Module AnalysisWorkflow.

(** The result of the [Read file] tool of the stage agent:
    [{ success: true, content }] or [{ success: false, error }]. *)
Inductive ReadResult : Type :=
| ReadOk (content : string)
| ReadFailed (error : string).

Definition success (r : ReadResult) : bool :=
  match r with ReadOk _ => true | ReadFailed _ => false end.

(** [r.success && test(r.content)] *)
Definition successAnd (r : ReadResult) (test : string -> bool) : bool :=
  match r with ReadOk content => test content | ReadFailed _ => false end.

(** [(r.content?.match(...) || []).length] *)
Definition matchCount (r : ReadResult) (count : string -> nat) : nat :=
  match r with ReadOk content => count content | ReadFailed _ => 0 end.

Record Validation := {
  complete : bool;
  hasAnalysis : bool;
  hasMVP : bool;
  hasCompetitive : bool;
  hasRisks : bool;
  unknownsCount : nat;
  risksCount : nat;
  competitorsCount : nat;
  reason : string
}.

(** The action of the step, on the four files it reads
    ([ANALYSIS.md], [MVP_DEFINITION.md], [COMPETITIVE_ANALYSIS.md],
    [RISK_ASSESSMENT.md]). *)
Definition validateCompleteness (analysis mvp competitive risks : ReadResult) : Validation :=
  let hasAnalysis := successAnd analysis (fun c => JS.includes c "Biggest Unknowns") in
  let hasMVP := successAnd mvp (fun c => JS.includes c "Core Hypothesis") in
  let hasCompetitive := successAnd competitive (fun c => 300 <? String.length c)%nat in
  let hasRisks := successAnd risks (fun c => JS.includes c "Risk") in
  let unknownsCount := matchCount analysis (Regex.countDotStar "##" "Unknown") in
  let risksCount := matchCount risks Regex.countTripleHash in
  let competitorsCount :=
    matchCount competitive (fun c => Regex.countDotStar "###" "competitor" (JS.toLowerCase c)) in
  let complete :=
    hasAnalysis && hasMVP && hasCompetitive && hasRisks &&
    (5 <=? unknownsCount)%nat && (5 <=? risksCount)%nat && (3 <=? competitorsCount)%nat in
  {| complete := complete;
     hasAnalysis := hasAnalysis;
     hasMVP := hasMVP;
     hasCompetitive := hasCompetitive;
     hasRisks := hasRisks;
     unknownsCount := unknownsCount;
     risksCount := risksCount;
     competitorsCount := competitorsCount;
     reason := if complete then "Analysis phase complete"
               else "Incomplete analysis - need more depth" |}.

End AnalysisWorkflow.

(** The helpers of the [waterfall-progression] workflow. *)
Module Waterfall.

Record Assumption := { criticality : number; validated : bool }.

(** The body of the loop of [parseAssumptions]. *)
Definition parseAssumptionLine (assumptions : list Assumption) (line : string)
  : list Assumption :=
  if JS.startsWith line "##" then
    let criticality :=
      match Regex.matchCriticality line with
      | Some capture => Number.parseFloat capture
      | None => Fin (1 # 2)
      end in
    let validated := JS.includes line "[validated]" || JS.includes line "[x]" in
    assumptions ++ [{| criticality := criticality; validated := validated |}]
  else assumptions.

Definition parseAssumptions (content : string) : list Assumption :=
  fold_left parseAssumptionLine (JS.split LF content) [].

Record Details := {
  hasRequirements : bool;
  hasAssumptions : bool;
  hasGoals : bool;
  criticalValidationRate : number
}.

Record Verdict := {
  complete : bool;
  reason : string;
  details : Details
}.

(** [content[file]?.length > n] *)
Definition longerThan (content : gmap string string) (file : string) (n : nat) : bool :=
  match content !! file with
  | Some text => (n <? String.length text)%nat
  | None => false
  end.

(** [content[file] || ''] *)
Definition textOrEmpty (content : gmap string string) (file : string) : string :=
  match content !! file with
  | Some text => text
  | None => EmptyString
  end.

Definition checkRequirementsComplete (content : gmap string string) : Verdict :=
  let hasRequirements := longerThan content "REQUIREMENTS.md" 100 in
  let hasAssumptions := longerThan content "ASSUMPTIONS.md" 0 in
  let hasGoals := longerThan content "GOALS.md" 0 in
  let assumptions := parseAssumptions (textOrEmpty content "ASSUMPTIONS.md") in
  let critical := List.filter (fun a => Number.gt (criticality a) (Fin (7 # 10))) assumptions in
  let validated := List.filter (fun a => validated a) critical in
  let validationRate := Number.divLengths (length validated) (length critical) in
  let complete :=
    hasRequirements && hasAssumptions && hasGoals &&
    Number.ge validationRate (Fin (8 # 10)) in
  {| complete := complete;
     reason := if complete then "Requirements stage complete" else "Requirements incomplete";
     details := {| hasRequirements := hasRequirements;
                   hasAssumptions := hasAssumptions;
                   hasGoals := hasGoals;
                   criticalValidationRate := validationRate |} |}.

End Waterfall.

(** ** Readings of the specification used in the statements *)

(** A reason cites the competitor criterion when it names competitors. *)
Definition citesCompetitors (reason : string) : bool :=
  JS.includes (JS.toLowerCase reason) "competitor".

Definition differs (sep : ascii) (c : ascii) : bool := negb (Ascii.eqb c sep).

(** A text field that stays on its line of the commit message: it has no
    line feed. *)
Definition singleLine (s : string) : bool := JS.every (differs LF) s.




(** The decision that [findDecision] reads off a page of commits. *)
Definition firstMatch (decisionName : string) (commits : list Commit) : option ParsedDecision :=
  match List.find (fun c => JS.includes (GitHub.message c) ("decision: " +:+ decisionName)) commits with
  | Some decisionCommit => Some (parseDecisionFromCommit (GitHub.message decisionCommit))
  | None => None
  end.

(** What [findDecision] answers in a world without a scheduled fault. *)
Definition observed (w : World) (repoName decisionName : string) : option ParsedDecision :=
  match GitHub.listCommits repoName 100 w with
  | inl _ => None
  | inr commits => firstMatch decisionName commits
  end.


(** The log, the branch [b], the repository [r] and the store [w] after
    one decision has been appended to the log [log] of [branch]. *)
Definition appendedLog (now log : string) (decision : Decision) : string :=
  log +:+ NL +:+ commitMessage now decision +:+ NL +:+ "---" +:+ NL.

Definition appendedBranch (b : GitHub.BranchState) (now log : string) (decision : Decision)
  : GitHub.BranchState :=
  {| GitHub.commits := {| GitHub.message := commitMessage now decision |} :: GitHub.commits b;
     GitHub.files := <["DECISIONS.log" := appendedLog now log decision]> (GitHub.files b) |}.

Definition appendedRepository (r : GitHub.Repository) (branch : string)
    (b : GitHub.BranchState) (now log : string) (decision : Decision) : GitHub.Repository :=
  {| GitHub.default_branch := GitHub.default_branch r;
     GitHub.branches := <[branch := appendedBranch b now log decision]> (GitHub.branches r) |}.

Definition appended (w : World) (repoName branch : string)
    (r : GitHub.Repository) (b : GitHub.BranchState)
    (now log : string) (decision : Decision) : World :=
  {| GitHub.repos :=
       <[repoName := appendedRepository r branch b now log decision]> (GitHub.repos w);
     GitHub.faults := GitHub.faults w |}.

(** ** Sample data *)

Module Sample.

Definition repo : string := "idea-bakery-1700000000000".

Definition useDatabase (chosen reason : string) (confidence revisit : Q) : Decision :=
  {| name := "use-database";
     type := "technology-choice";
     alternatives := ["PostgreSQL"; "MongoDB"; "SQLite"];
     chosen := chosen;
     reason := reason;
     confidence := Fin confidence;
     revisitProbability := Fin revisit |}.

Definition postgres : Decision :=
  useDatabase "PostgreSQL" "Relational data, ACID guarantees" (85 # 100) (5 # 100).

Definition mongo (revisit : Q) : Decision :=
  useDatabase "MongoDB" "Flexible documents" (6 # 10) revisit.

Definition connectionPool : Decision :=
  {| name := "use-db-pool";
     type := "architecture";
     alternatives := ["pgbouncer"; "in-process pool"];
     chosen := "pgbouncer";
     reason := "Many short-lived connections";
     confidence := Fin (8 # 10);
     revisitProbability := Fin (2 # 10) |}.

Definition t1 : string := "2025-01-10T09:00:00.000Z".
Definition t2 : string := "2025-02-20T16:30:00.000Z".

Definition decisionsLog : string := "# Decision History" +:+ NL +:+ NL.

(** The [main] branch of a repository created with [auto_init]. *)
Definition mainBranch : GitHub.BranchState :=
  {| GitHub.commits := [{| GitHub.message := "Initial commit" |}];
     GitHub.files := {[ "README.md" := "# idea-bakery" ]} |}.

Definition initCommits : list Commit :=
  [{| GitHub.message := "init: create DECISIONS.log" |};
   {| GitHub.message := "init: create GOALS.md" |};
   {| GitHub.message := "init: create ASSUMPTIONS.md" |};
   {| GitHub.message := "init: create REQUIREMENTS.md" |};
   {| GitHub.message := "init: create README.md" |};
   {| GitHub.message := "Initial commit" |}].

(** The [requirements] branch after [createWaterfallBranches] and
    [initializeRequirements] (the templates are cut to their titles). *)
Definition requirementsBranch : GitHub.BranchState :=
  {| GitHub.commits := initCommits;
     GitHub.files := {[ "README.md" := "# Possible Future" +:+ NL;
                        "REQUIREMENTS.md" := "# Requirements" +:+ NL;
                        "ASSUMPTIONS.md" := "# Assumptions" +:+ NL;
                        "GOALS.md" := "# Goals" +:+ NL;
                        "DECISIONS.log" := decisionsLog ]} |}.

(** The repository of an idea, with the given default branch and the
    given schedule of store faults. *)
Definition world (default : string) (faults : list (option Error)) : World :=
  {| GitHub.repos :=
       {[ repo := {| GitHub.default_branch := default;
                     GitHub.branches := {[ "main" := mainBranch;
                                           "requirements" := requirementsBranch ]} |} ]};
     GitHub.faults := faults |}.

Definition withFaults (w : World) (faults : list (option Error)) : World :=
  {| GitHub.repos := GitHub.repos w; GitHub.faults := faults |}.

Definition messages (w : World) (branch : string) : list string :=
  map GitHub.message (GitHub.history w repo branch).

(** An assumptions document with four assumptions. *)
Definition assumptionsDoc : string :=
  "# Assumptions" +:+ NL +:+
  "## Bakers order online (criticality: 0.8) [validated]" +:+ NL +:+
  "## Delivery within a day is enough (criticality: 0.75) [x]" +:+ NL +:+
  "Interviews with twelve bakers." +:+ NL +:+
  "## Card payments suffice (criticality: 0.5)" +:+ NL +:+
  "## Logo matters (criticality: 0.3)" +:+ NL.

(** An assumptions document without a critical assumption. *)
Definition mildAssumptionsDoc : string :=
  "# Assumptions" +:+ NL +:+
  "## Card payments suffice (criticality: 0.5) [validated]" +:+ NL +:+
  "## Logo matters (criticality: 0.3)" +:+ NL.

Definition requirementsDoc : string :=
  "# Requirements" +:+ NL +:+
  "## Essential State" +:+ NL +:+
  "Bakeries, products, orders and delivery slots are the state the system keeps." +:+ NL +:+
  "## User Stories" +:+ NL +:+
  "A baker publishes the products of the day; a customer orders and picks a slot." +:+ NL.

Definition goalsDoc : string := "# Goals" +:+ NL +:+ "## Fifty orders a week" +:+ NL.

Definition artifacts (assumptions : string) : gmap string string :=
  {[ "REQUIREMENTS.md" := requirementsDoc;
     "ASSUMPTIONS.md" := assumptions;
     "GOALS.md" := goalsDoc ]}.

(** Analysis artifacts: four unknowns, six risks, two competitors. *)
Definition analysisDoc : string :=
  "# Analysis" +:+ NL +:+
  "## Biggest Unknowns" +:+ NL +:+
  "### Market Unknown: will bakers pay" +:+ NL +:+
  "### Technical Unknown: slot planning" +:+ NL +:+
  "### User Unknown: ordering habits" +:+ NL.

Definition mvpDoc : string := "# MVP" +:+ NL +:+ "## Core Hypothesis" +:+ NL.

Definition competitiveDoc : string :=
  "# Competitive Analysis" +:+ NL +:+
  "### Direct Competitor: BreadBox" +:+ NL +:+
  "Strengths: a large catalogue and an established courier network in three cities. " +:+
  "Weaknesses: no support for daily changing assortments, high commission per order." +:+ NL +:+
  "### Indirect competitor: phone orders" +:+ NL +:+
  "Strengths: no tooling needed, personal contact with the baker and full flexibility. " +:+
  "Weaknesses: orders get lost, no overview of demand, nobody answers during baking." +:+ NL.

Definition risksDoc : string :=
  "# Risk Assessment" +:+ NL +:+
  "### Market Risk" +:+ NL +:+ "### Technical Risk" +:+ NL +:+ "### Team Risk" +:+ NL +:+
  "### Financial Risk" +:+ NL +:+ "### Execution Risk" +:+ NL +:+ "### Regulatory Risk" +:+ NL.



End Sample.

(** ** Further built-ins *)

Module Builtins.

(** [xs.indexOf(x)]: the first index of [x], [-1] when [x] does not occur. *)
Fixpoint indexOfFrom (i : Z) (xs : list string) (x : string) : Z :=
  match xs with
  | [] => (-1)%Z
  | y :: rest => if String.eqb y x then i else indexOfFrom (i + 1)%Z rest x
  end.

Definition indexOf (xs : list string) (x : string) : Z := indexOfFrom 0 xs x.

(** [xs[i]], [undefined] outside the list. *)
Definition item (xs : list string) (i : Z) : option string :=
  if (i <? 0)%Z then None else nth_error xs (Z.to_nat i).

(** [s.replace(pattern, replacement)] for a string pattern and a
    replacement without [$]: the first occurrence is replaced. *)
Fixpoint replaceFirst (pattern replacement s : string) : string :=
  match Regex.stripPrefix pattern s with
  | Some rest => replacement +:+ rest
  | None =>
      match s with
      | EmptyString => EmptyString
      | String c r => String c (replaceFirst pattern replacement r)
      end
  end.

(** [s.toLowerCase()] on code units below 256. *)
Definition lowerChar (c : ascii) : ascii :=
  let n := N_of_ascii c in
  if ((65 <=? n) && (n <=? 90) || (192 <=? n) && (n <=? 214) || (216 <=? n) && (n <=? 222))%N
  then ascii_of_N (n + 32) else c.

Fixpoint lowerCase (s : string) : string :=
  match s with
  | EmptyString => EmptyString
  | String c r => String (lowerChar c) (lowerCase r)
  end.

(** [s.replace(/[...]/g, by)]: every code unit of the class [p] becomes [by]. *)
Fixpoint replaceEach (p : ascii -> bool) (by_ : ascii) (s : string) : string :=
  match s with
  | EmptyString => EmptyString
  | String c r => String (if p c then by_ else c) (replaceEach p by_ r)
  end.

(** [s.replace(/[...]+/g, by)]: every maximal run of code units of the
    class [p] becomes one [by]; [inRun] tells that the run has begun. *)
Fixpoint replaceRunsFrom (inRun : bool) (p : ascii -> bool) (by_ : ascii) (s : string) : string :=
  match s with
  | EmptyString => EmptyString
  | String c r =>
      if p c then
        if inRun then replaceRunsFrom true p by_ r
        else String by_ (replaceRunsFrom true p by_ r)
      else String c (replaceRunsFrom false p by_ r)
  end.

Definition replaceRuns (p : ascii -> bool) (by_ : ascii) (s : string) : string :=
  replaceRunsFrom false p by_ s.

(** [s.substring(0, n)] *)
Definition substringTo (n : nat) (s : string) : string := fst (JS.splitAt n s).

(** The class [[a-z0-9-]]. *)
Definition isSlugChar (c : ascii) : bool :=
  let n := N_of_ascii c in
  ((97 <=? n) && (n <=? 122))%N || JS.isDigit c || Ascii.eqb c "-".

Definition isHyphen (c : ascii) : bool := Ascii.eqb c "-".

(** A value read from an object of type [any]: [undefined], a string or a
    boolean. *)
Inductive Value : Type :=
| Undefined
| Text (s : string)
| Boolean (b : bool).

Definition truthy (v : Value) : bool :=
  match v with
  | Undefined => false
  | Text s => negb (JS.isEmpty s)
  | Boolean b => b
  end.

(** [a || b] *)
Definition orElse (a b : Value) : Value := if truthy a then a else b.

(** [a && b] *)
Definition andAlso (a b : Value) : Value := if truthy a then b else a.

(** [content[key]] *)
Definition property (content : gmap string string) (key : string) : Value :=
  match content !! key with
  | Some text => Text text
  | None => Undefined
  end.

(** A value inside a template literal. *)
Definition interpolate (v : option string) : string :=
  match v with
  | Some s => s
  | None => "undefined"
  end.

End Builtins.

(** ** [GitHubFuturesClient]: stages, repository names, pull requests *)

Definition stages : list string :=
  ["requirements"; "analysis"; "design"; "implementation"; "testing"; "validation";
   "deployment"].

(** [getNextStage], the same in [client.ts] and in the workflows.  The
    index read is within the list, see [getNextStage_is_a_stage]. *)
Definition getNextStage (current : string) : string :=
  let index := Builtins.indexOf stages current in
  if (index <? Z.of_nat (length stages) - 1)%Z then
    Builtins.interpolate (Builtins.item stages (index + 1))
  else "deployment".

(** The name that [createIdea] gives the repository; [now] is [Date.now()]. *)
Definition ideaRepoName (name : string) (now : N) : string :=
  "idea-" +:+ Builtins.replaceRuns JS.isWhiteSpace "-" (Builtins.lowerCase name) +:+
  "-" +:+ JS.digitsOf now.

Module PullRequest.

(** What [generatePRBody] reads of [content]: the summary and, of each
    decision, its name and its chosen alternative. *)
Record Generated := {
  summary : option string;
  decisions : option (list (string * string))
}.

(** The parameters of [pulls.create]. *)
Record Params := {
  repo : string;
  title : string;
  head : string;
  base : string;
  body : string;
  draft : bool
}.

End PullRequest.

(** Non-ASCII characters of the templates are the bytes of their UTF-8
    encoding. *)
Definition generatePRBody (from to : string) (content : PullRequest.Generated) : string :=
  "## Stage Transition: " +:+ from +:+ " → " +:+ to +:+ NL +:+
  NL +:+
  "### What Changed" +:+ NL +:+
  NL +:+
  Builtins.interpolate (PullRequest.summary content) +:+ NL +:+
  NL +:+
  "### Decisions Made" +:+ NL +:+
  NL +:+
  Builtins.interpolate
    (option_map
       (fun ds => JS.join NL (map (fun d => "- " +:+ fst d +:+ ": " +:+ snd d) ds))
       (PullRequest.decisions content)) +:+ NL +:+
  NL +:+
  "### Next Steps" +:+ NL +:+
  NL +:+
  "This PR progresses the idea to the " +:+ to +:+ " stage." +:+ NL +:+
  NL +:+
  "### Validation" +:+ NL +:+
  NL +:+
  "- All " +:+ from +:+ " requirements met" +:+ NL +:+
  "- Critical assumptions validated" +:+ NL +:+
  "- Ready for " +:+ to +:+ " stage" +:+ NL +:+
  NL +:+
  "---" +:+ NL +:+
  NL +:+
  "*Automated by AI Cofounder Mastra Workflow*" +:+ NL.

(** [createStagePR]: the pull request it asks the store to create. *)
Definition createStagePR (repoName fromStage toStage : string)
    (content : PullRequest.Generated) : PullRequest.Params :=
  {| PullRequest.repo := repoName;
     PullRequest.title := fromStage +:+ " → " +:+ toStage +:+ ": Stage transition";
     PullRequest.head := toStage;
     PullRequest.base := getNextStage toStage;
     PullRequest.body := generatePRBody fromStage toStage content;
     PullRequest.draft := false |}.

(** ** The [waterfall-progression] workflow *)

Module Progression.

Record Detected := {
  currentStage : string;
  nextStage : string;
  branch : string
}.

(** The [detect-stage] step, on [context.ref]. *)
Definition detectStage (ref : string) : Detected :=
  let branch := Builtins.replaceFirst "refs/heads/" EmptyString ref in
  let stage := nth 0 (JS.split "/" branch) EmptyString in
  {| currentStage := stage; nextStage := getNextStage stage; branch := branch |}.

(** The [load-content] step: [GitHubFuturesClient] has no [loadAllFiles],
    so [(github as any).loadAllFiles?.(...) || {}] is the empty object. *)
Definition loadContent : gmap string string := ∅.

Record ImplementationVerdict := {
  complete : Builtins.Value;
  reason : string
}.

Definition checkImplementationComplete (content : gmap string string) : ImplementationVerdict :=
  let hasCode := Builtins.orElse (Builtins.property content "src/")
                                 (Builtins.property content "implementation/src/") in
  let hasTests := Builtins.orElse (Builtins.property content "tests/")
                                  (Builtins.property content "implementation/tests/") in
  {| complete := Builtins.andAlso hasCode hasTests;
     reason := if Builtins.truthy (Builtins.andAlso hasCode hasTests)
               then "Implementation complete" else "Missing code or tests" |}.

(** What the [check-completeness] step returns. *)
Inductive Completeness : Type :=
| OfRequirements (verdict : Waterfall.Verdict)
| OfImplementation (verdict : ImplementationVerdict)
| NotImplemented.   (* { complete: false, reason: 'Stage check not implemented' } *)

Definition checkCompleteness (currentStage : string) (content : gmap string string)
  : Completeness :=
  if String.eqb currentStage "requirements" then
    OfRequirements (Waterfall.checkRequirementsComplete content)
  else if String.eqb currentStage "implementation" then
    OfImplementation (checkImplementationComplete content)
  else NotImplemented.

(** [results['check-completeness']?.complete] *)
Definition completeOf (result : Completeness) : Builtins.Value :=
  match result with
  | OfRequirements verdict => Builtins.Boolean (Waterfall.complete verdict)
  | OfImplementation verdict => complete verdict
  | NotImplemented => Builtins.Boolean false
  end.

Definition reasonOf (result : Completeness) : string :=
  match result with
  | OfRequirements verdict => Waterfall.reason verdict
  | OfImplementation verdict => reason verdict
  | NotImplemented => "Stage check not implemented"
  end.

(** The condition of the [generate-next-stage] step, for a push to [ref]. *)
Definition generates (ref : string) : bool :=
  Builtins.truthy (completeOf (checkCompleteness (currentStage (detectStage ref)) loadContent)).

(** The [create-pr] step, for a push to [ref]. *)
Definition createPR (repoName ref : string) (generated : PullRequest.Generated)
  : PullRequest.Params :=
  let detected := detectStage ref in
  createStagePR repoName (currentStage detected) (nextStage detected) generated.

End Progression.

(** ** The [create-idea] workflow *)

(** [sanitizedName] of the [validate-input] step. *)
Definition sanitizedName (name : string) : string :=
  Builtins.substringTo 50
    (Builtins.replaceRuns Builtins.isHyphen "-"
       (Builtins.replaceEach (fun c => negb (Builtins.isSlugChar c)) "-"
          (Builtins.lowerCase name))).

(** ** The stage agent's [Read file] tool and the step that uses it *)

Section StageAgent.

(** [error.message] of a rejected store call. *)
Variable errorMessage : Error -> string.

(** The [Read file] tool of an agent locked to [stage]; [executeTool]
    resolves ['Read file'] to it, the first tool whose description
    includes that text.  The store holds files only, so the answer
    [Not a file] that the tool gives for a directory does not arise. *)
Definition readFile (repoName stage filename : string) : Async AnalysisWorkflow.ReadResult :=
  catch
    (file <- await (GetContent repoName filename stage) ;;
     Return (AnalysisWorkflow.ReadOk (GitHub.content file)))
    (fun error => Return (AnalysisWorkflow.ReadFailed (errorMessage error))).

(** The action of the [validate-completeness] step of the analysis
    workflow, with its four reads. *)
Definition validateAnalysis (repoName : string) : Async AnalysisWorkflow.Validation :=
  analysis <- readFile repoName "analysis" "ANALYSIS.md" ;;
  mvp <- readFile repoName "analysis" "MVP_DEFINITION.md" ;;
  competitive <- readFile repoName "analysis" "COMPETITIVE_ANALYSIS.md" ;;
  risks <- readFile repoName "analysis" "RISK_ASSESSMENT.md" ;;
  Return (AnalysisWorkflow.validateCompleteness analysis mvp competitive risks).

End StageAgent.

(** ** Readings used in the further properties *)

(** The state of a branch of a repository, when both exist. *)
Definition branchState (w : World) (repoName branch : string) : option GitHub.BranchState :=
  match GitHub.repos w !! repoName with
  | None => None
  | Some r => GitHub.branches r !! branch
  end.

(** The text of [DECISIONS.log] on a branch. *)
Definition decisionsLogOf (w : World) (repoName branch : string) : option string :=
  match branchState w repoName branch with
  | None => None
  | Some b => GitHub.files b !! "DECISIONS.log"
  end.

(** A run of [n] hash signs. *)
Fixpoint hashes (n : nat) : string :=
  match n with
  | O => EmptyString
  | S n' => String "#" (hashes n')
  end.

(** Further sample data. *)
Module Sample2.

(** A default branch on which a decision lies under a hundred later
    commits. *)
Definition busyBranch : GitHub.BranchState :=
  {| GitHub.commits :=
       repeat {| GitHub.message := "docs: update notes" |} 100 ++
       [{| GitHub.message := commitMessage Sample.t1 Sample.postgres |};
        {| GitHub.message := "Initial commit" |}];
     GitHub.files := {[ "DECISIONS.log" := Sample.decisionsLog ]} |}.

Definition busyWorld : World :=
  {| GitHub.repos :=
       {[ Sample.repo := {| GitHub.default_branch := "main";
                            GitHub.branches := {[ "main" := busyBranch ]} |} ]};
     GitHub.faults := [] |}.

(** The messages of store errors. *)
Definition errorMessage (e : Error) : string :=
  match e with
  | StoreUnavailable => "connect ECONNREFUSED"
  | NotFound => "Not Found"
  | Conflict => "DECISIONS.log does not match"
  end.

(** A repository whose [analysis] branch holds the four deliverables. *)
Definition analysisBranch : GitHub.BranchState :=
  {| GitHub.commits := [{| GitHub.message := "analysis: Add risk assessment" |};
                        {| GitHub.message := "Initial commit" |}];
     GitHub.files := {[ "ANALYSIS.md" := Sample.analysisDoc;
                        "MVP_DEFINITION.md" := Sample.mvpDoc;
                        "COMPETITIVE_ANALYSIS.md" := Sample.competitiveDoc;
                        "RISK_ASSESSMENT.md" := Sample.risksDoc ]} |}.

Definition analysisWorld (faults : list (option Error)) : World :=
  {| GitHub.repos :=
       {[ Sample.repo := {| GitHub.default_branch := "main";
                            GitHub.branches := {[ "main" := Sample.mainBranch;
                                                  "analysis" := analysisBranch ]} |} ]};
     GitHub.faults := faults |}.

(** Artifacts of an implementation stage. *)
Definition implementationArtifacts : gmap string string :=
  {[ "src/" := EmptyString;
     "implementation/src/" := "index.ts";
     "tests/" := "index.test.ts" ]}.

End Sample2.

(** * Properties *)

(** ** Built-ins on sample values *)

Example toString_samples :
  map Number.toString [Fin (85 # 100); Fin (5 # 100); Fin 1; Fin 0; Fin (1 # 10000000); Fin (- 25 # 10); NaN;
                       Fin (123456789012345678901234 # 1); Fin (1 # 1000000); Fin (1234 # 10)]
  = ["0.85"; "0.05"; "1"; "0"; "1e-7"; "-2.5"; "NaN"; "1.23456789012345678901234e+23"; "0.000001"; "123.4"].
Proof. vm_compute. reflexivity. Qed.

Example parseFloat_samples :
  map Number.parseFloat [" 0.85"; "0.7.5"; "."; ".5"; "5."; "1e3"; "-2.5e-1x"; "abc"; " Infinity"; "0.70"]
  = [Fin (17 # 20); Fin (7 # 10); NaN; Fin (1 # 2); Fin 5; Fin 1000; Fin (- 1 # 4); NaN; Infinity false; Fin (7 # 10)].
Proof. vm_compute. reflexivity. Qed.

(** ** Running asynchronous functions *)

Section RunFacts.

Context {A B : Type}.

Lemma run_bind (m : Async A) (f : A -> Async B) (w : World) :
  run (bind m f) w =
  match run m w with
  | (inl e, w') => (inl e, w')
  | (inr a, w') => run (f a) w'
  end.
Proof.
  revert w. induction m as [a | e | R req k IH]; intros w; simpl; try reflexivity.
  destruct (GitHub.perform req w) as [r w']. apply IH.
Qed.

Lemma run_catch (m : Async A) (h : Error -> Async A) (w : World) :
  run (catch m h) w =
  match run m w with
  | (inl e, w') => run (h e) w'
  | (inr a, w') => (inr a, w')
  end.
Proof.
  revert w. induction m as [a | e | R req k IH]; intros w; simpl; try reflexivity.
  destruct (GitHub.perform req w) as [r w']. apply IH.
Qed.

Lemma run_await (req : Request A) (w : World) :
  run (await req) w = GitHub.perform req w.
Proof.
  unfold await. simpl. destruct (GitHub.perform req w) as [[e | x] w']; reflexivity.
Qed.

End RunFacts.

Lemma run_findDecision (repoName decisionName : string) (w : World) :
  run (findDecision repoName decisionName) w =
  match GitHub.perform (ListCommits repoName 100) w with
  | (inl _, w') => (inr None, w')
  | (inr commits, w') => (inr (firstMatch decisionName commits), w')
  end.
Proof.
  unfold findDecision. rewrite run_catch, run_bind, run_await.
  destruct (GitHub.perform (ListCommits repoName 100) w) as [[e | commits] w']; simpl.
  - reflexivity.
  - unfold firstMatch. destruct (List.find _ commits); reflexivity.
Qed.

(** [makeDecision] goes by the revisit probability of the proposal alone. *)
Lemma run_makeDecision (now repoName branch : string) (decision : Decision) (w : World) :
  run (makeDecision now repoName branch decision) w =
  match run (findDecision repoName (name decision)) w with
  | (inl e, w') => (inl e, w')
  | (inr (Some found), w') =>
      if Number.lt (revisitProbability decision) (Fin (7 # 10)) then (inr (Existing found), w')
      else run (appendDecision now repoName branch decision) w'
  | (inr None, w') => run (appendDecision now repoName branch decision) w'
  end.
Proof.
  unfold makeDecision. rewrite run_bind.
  destruct (run (findDecision repoName (name decision)) w) as [[e | [found |]] w']; try reflexivity.
  destruct (Number.lt _ _); reflexivity.
Qed.

(** Without a scheduled fault [findDecision] answers from the first page
    of the commits of the default branch, and changes nothing. *)
Lemma findDecision_observed (repoName decisionName : string) (w : World) :
  GitHub.faults w = [] ->
  run (findDecision repoName decisionName) w = (inr (observed w repoName decisionName), w).
Proof.
  intros Hfaults. rewrite run_findDecision. unfold GitHub.perform, observed.
  rewrite Hfaults. simpl. destruct (GitHub.listCommits repoName 100 w); reflexivity.
Qed.

(** An existing decision is returned, and nothing is committed, when the
    revisit probability of the proposal is below 0.7. *)
Lemma makeDecision_reuses (now repoName branch : string) (decision : Decision)
    (w : World) (found : ParsedDecision) :
  GitHub.faults w = [] ->
  observed w repoName (name decision) = Some found ->
  Number.lt (revisitProbability decision) (Fin (7 # 10)) = true ->
  run (makeDecision now repoName branch decision) w = (inr (Existing found), w).
Proof.
  intros Hfaults Hfound Hlow.
  rewrite run_makeDecision, (findDecision_observed _ _ _ Hfaults), Hfound, Hlow.
  reflexivity.
Qed.

(** An existing decision does not stop the append when the revisit
    probability of the proposal is not below 0.7. *)
Lemma makeDecision_revisits (now repoName branch : string) (decision : Decision)
    (w : World) (found : ParsedDecision) :
  GitHub.faults w = [] ->
  observed w repoName (name decision) = Some found ->
  Number.lt (revisitProbability decision) (Fin (7 # 10)) = false ->
  run (makeDecision now repoName branch decision) w =
    run (appendDecision now repoName branch decision) w.
Proof.
  intros Hfaults Hfound Hhigh.
  rewrite run_makeDecision, (findDecision_observed _ _ _ Hfaults), Hfound, Hhigh.
  reflexivity.
Qed.

(** The append on a reachable store: one commit on [branch]. *)
Lemma run_appendDecision_ok (now repoName branch log : string) (decision : Decision)
    (w : World) (r : GitHub.Repository) (b : GitHub.BranchState) :
  GitHub.faults w = [] ->
  GitHub.repos w !! repoName = Some r ->
  GitHub.branches r !! branch = Some b ->
  GitHub.files b !! "DECISIONS.log" = Some log ->
  run (appendDecision now repoName branch decision) w =
    (inr (Made decision), appended w repoName branch r b now log decision).
Proof.
  intros Hfaults Hrepo Hbranch Hlog.
  unfold appendDecision. rewrite run_bind, run_await.
  unfold GitHub.perform at 1. rewrite Hfaults. cbn [GitHub.serve].
  unfold GitHub.getContent. rewrite Hrepo, Hbranch, Hlog.
  rewrite run_bind, run_await.
  unfold GitHub.perform. rewrite Hfaults. cbn [GitHub.serve].
  unfold GitHub.createOrUpdateFileContents. rewrite Hrepo, Hbranch, Hlog.
  cbn [GitHub.sha GitHub.content]. rewrite String.eqb_refl. reflexivity.
Qed.

(** Whatever the existing decision is, a proposal whose revisit probability
    is not below 0.7 is committed and returned. *)
Lemma makeDecision_appends_over_existing (now repoName branch log : string)
    (decision : Decision) (found : ParsedDecision)
    (w : World) (r : GitHub.Repository) (b : GitHub.BranchState) :
  GitHub.faults w = [] ->
  observed w repoName (name decision) = Some found ->
  Number.lt (revisitProbability decision) (Fin (7 # 10)) = false ->
  GitHub.repos w !! repoName = Some r ->
  GitHub.branches r !! branch = Some b ->
  GitHub.files b !! "DECISIONS.log" = Some log ->
  run (makeDecision now repoName branch decision) w =
    (inr (Made decision), appended w repoName branch r b now log decision).
Proof.
  intros Hfaults Hfound Hhigh Hrepo Hbranch Hlog.
  rewrite (makeDecision_revisits _ _ _ _ _ found Hfaults Hfound Hhigh).
  now apply run_appendDecision_ok.
Qed.

(** ** Decisions made once: [makeDecision] after an earlier decision *)

(** C1 (failing input).  [use-database] is recorded with PostgreSQL and
    revisit probability 0.05 and is found by [findDecision] afterwards.  A
    later call that proposes MongoDB with revisit probability 0.9 is not
    answered with the PostgreSQL decision: [makeDecision] compares the
    revisit probability of the proposal, not that of the existing decision,
    with 0.7, returns the proposal and appends a second commit. *)
Theorem makeDecision_tests_the_proposal_not_the_existing :
  let w0 := Sample.world "requirements" [] in
  let '(r1, w1) := run (makeDecision Sample.t1 Sample.repo "requirements" Sample.postgres) w0 in
  let '(found, _) := run (findDecision Sample.repo "use-database") w1 in
  let '(r2, w2) := run (makeDecision Sample.t2 Sample.repo "requirements" (Sample.mongo (9 # 10))) w1 in
  r1 = inr (Made Sample.postgres) /\
  found = inr (Some {| parsed_type := Some "technology-choice";
                       parsed_chosen := Some "PostgreSQL";
                       parsed_confidence := Some (Fin (17 # 20));
                       parsed_revisitProbability := Some (Fin (1 # 20)) |}) /\
  Number.lt (Fin (1 # 20)) (Fin (7 # 10)) = true /\
  r2 = inr (Made (Sample.mongo (9 # 10))) /\
  Sample.messages w2 "requirements" =
    commitMessage Sample.t2 (Sample.mongo (9 # 10)) ::
    commitMessage Sample.t1 Sample.postgres ::
    Sample.messages w0 "requirements".
Proof. vm_compute. repeat split; reflexivity. Qed.

(** C2 (failing input).  The existing decision has revisit probability 0.8
    and a second proposal for the same name has revisit probability 0.8.
    [makeDecision] takes no blocking-condition argument; the second call
    appends a second commit all the same. *)
Theorem makeDecision_revisits_without_blocking_signal :
  let first := Sample.mongo (8 # 10) in
  let second := Sample.useDatabase "PostgreSQL" "Relational data" (85 # 100) (8 # 10) in
  let w0 := Sample.world "requirements" [] in
  let '(r1, w1) := run (makeDecision Sample.t1 Sample.repo "requirements" first) w0 in
  let '(found, _) := run (findDecision Sample.repo "use-database") w1 in
  let '(r2, w2) := run (makeDecision Sample.t2 Sample.repo "requirements" second) w1 in
  r1 = inr (Made first) /\
  found = inr (Some {| parsed_type := Some "technology-choice";
                       parsed_chosen := Some "MongoDB";
                       parsed_confidence := Some (Fin (3 # 5));
                       parsed_revisitProbability := Some (Fin (4 # 5)) |}) /\
  r2 = inr (Made second) /\
  Sample.messages w2 "requirements" =
    commitMessage Sample.t2 second :: commitMessage Sample.t1 first ::
    Sample.messages w0 "requirements".
Proof. vm_compute. repeat split; reflexivity. Qed.

(** ** [findDecision] *)

(** C4 (failing input).  In a repository whose default branch is [main], a
    decision that [makeDecision] has committed to the [requirements] branch
    is on that branch and is not found by [findDecision]: the one
    [listCommits] call names no branch, so only the default branch is
    read. *)
Theorem findDecision_misses_stage_branch_decision :
  let w0 := Sample.world "main" [] in
  let '(r1, w1) := run (makeDecision Sample.t1 Sample.repo "requirements" Sample.postgres) w0 in
  r1 = inr (Made Sample.postgres) /\
  Sample.messages w1 "requirements" =
    commitMessage Sample.t1 Sample.postgres :: Sample.messages w0 "requirements" /\
  run (findDecision Sample.repo "use-database") w1 = (inr None, w1).
Proof. vm_compute. repeat split; reflexivity. Qed.

(** ** Requirements evaluator *)

Lemma andb_false_last (a b c : bool) : a && b && c && false = false.
Proof. destruct a, b, c; reflexivity. Qed.

(** C3 (the code on the inputs of the claim).  Without a critical
    assumption the validation rate is [0 / 0], which is [NaN], and
    [NaN >= 0.8] is false: the verdict is incomplete whatever the
    artifacts are. *)
Theorem checkRequirementsComplete_no_critical_assumption (content : gmap string string) :
  List.filter (fun a => Number.gt (Waterfall.criticality a) (Fin (7 # 10)))
    (Waterfall.parseAssumptions (Waterfall.textOrEmpty content "ASSUMPTIONS.md")) = [] ->
  Waterfall.complete (Waterfall.checkRequirementsComplete content) = false /\
  Waterfall.criticalValidationRate
    (Waterfall.details (Waterfall.checkRequirementsComplete content)) = NaN.
Proof.
  intros Hnone. unfold Waterfall.checkRequirementsComplete.
  rewrite Hnone. simpl. split; [apply andb_false_last | reflexivity].
Qed.

Lemma checkRequirementsComplete_no_critical_assumption_witness :
  let content := Sample.artifacts Sample.mildAssumptionsDoc in
  Waterfall.longerThan content "REQUIREMENTS.md" 100 = true /\
  Waterfall.longerThan content "ASSUMPTIONS.md" 0 = true /\
  Waterfall.longerThan content "GOALS.md" 0 = true /\
  Waterfall.complete (Waterfall.checkRequirementsComplete content) = false /\
  Waterfall.criticalValidationRate
    (Waterfall.details (Waterfall.checkRequirementsComplete content)) = NaN.
Proof.
  repeat (split; [vm_compute; reflexivity |]).
  apply (checkRequirementsComplete_no_critical_assumption
           (Sample.artifacts Sample.mildAssumptionsDoc)).
  vm_compute. reflexivity.
Defined.

(** C8.  With the three artifacts present, the requirements longer than
    100 code units, and four assumptions of criticality 0.8, 0.75, 0.5 and
    0.3 of which the first two are validated, the critical validation rate
    is 2/2 = 1 and the verdict is complete. *)
Theorem checkRequirementsComplete_two_of_two
    (content : gmap string string) (requirements assumptions goals : string)
    (third fourth : bool) :
  content !! "REQUIREMENTS.md" = Some requirements ->
  (100 < String.length requirements)%nat ->
  content !! "ASSUMPTIONS.md" = Some assumptions ->
  Waterfall.parseAssumptions assumptions =
    [ {| Waterfall.criticality := Fin (4 # 5); Waterfall.validated := true |};
      {| Waterfall.criticality := Fin (3 # 4); Waterfall.validated := true |};
      {| Waterfall.criticality := Fin (1 # 2); Waterfall.validated := third |};
      {| Waterfall.criticality := Fin (3 # 10); Waterfall.validated := fourth |} ] ->
  content !! "GOALS.md" = Some goals ->
  (0 < String.length goals)%nat ->
  Waterfall.complete (Waterfall.checkRequirementsComplete content) = true /\
  Waterfall.criticalValidationRate
    (Waterfall.details (Waterfall.checkRequirementsComplete content)) = Fin 1.
Proof.
  intros Hreq Hlen Hass Hparse Hgoals Hglen.
  assert (Hnonempty : (0 < String.length assumptions)%nat).
  { destruct assumptions; [discriminate Hparse | simpl; lia]. }
  unfold Waterfall.checkRequirementsComplete, Waterfall.longerThan, Waterfall.textOrEmpty.
  rewrite Hreq, Hass, Hgoals, Hparse. simpl.
  apply Nat.ltb_lt in Hlen, Hnonempty, Hglen.
  rewrite Hlen, Hnonempty, Hglen. split; reflexivity.
Qed.

Lemma checkRequirementsComplete_two_of_two_witness :
  Waterfall.complete
    (Waterfall.checkRequirementsComplete (Sample.artifacts Sample.assumptionsDoc)) = true /\
  Waterfall.criticalValidationRate
    (Waterfall.details
       (Waterfall.checkRequirementsComplete (Sample.artifacts Sample.assumptionsDoc))) = Fin 1.
Proof.
  apply (checkRequirementsComplete_two_of_two
           (Sample.artifacts Sample.assumptionsDoc)
           Sample.requirementsDoc Sample.assumptionsDoc Sample.goalsDoc false false).
  - vm_compute. reflexivity.
  - vm_compute. lia.
  - vm_compute. reflexivity.
  - vm_compute. reflexivity.
  - vm_compute. reflexivity.
  - vm_compute. lia.
Defined.

(** ** Analysis evaluator *)

(** C5 (counterexample).  On analysis artifacts with 4 unknowns, 6 risks and
    2 competitors the verdict is incomplete, and its reason is the fixed
    text of every incomplete verdict: it does not cite the competitors. *)
Lemma validateCompleteness_reason_is_generic :
  let v := AnalysisWorkflow.validateCompleteness
             (AnalysisWorkflow.ReadOk Sample.analysisDoc)
             (AnalysisWorkflow.ReadOk Sample.mvpDoc)
             (AnalysisWorkflow.ReadOk Sample.competitiveDoc)
             (AnalysisWorkflow.ReadOk Sample.risksDoc) in
  AnalysisWorkflow.unknownsCount v = 4 /\
  AnalysisWorkflow.risksCount v = 6 /\
  AnalysisWorkflow.competitorsCount v = 2 /\
  AnalysisWorkflow.reason v = "Incomplete analysis - need more depth" /\
  ~ (AnalysisWorkflow.complete v = false /\
     citesCompetitors (AnalysisWorkflow.reason v) = true).
Proof.
  vm_compute. repeat (split; [reflexivity |]).
  intros [_ Hcites]. discriminate Hcites.
Qed.

(** C5 (amended).  Whenever the step counts 4 unknowns, 6 risks and 2
    competitors, the verdict is incomplete with the fixed reason
    [Incomplete analysis - need more depth]; the competitor count is
    reported in the field [competitorsCount], not in the reason. *)
Theorem validateCompleteness_four_six_two
    (analysis mvp competitive risks : AnalysisWorkflow.ReadResult) :
  let v := AnalysisWorkflow.validateCompleteness analysis mvp competitive risks in
  AnalysisWorkflow.unknownsCount v = 4 ->
  AnalysisWorkflow.risksCount v = 6 ->
  AnalysisWorkflow.competitorsCount v = 2 ->
  AnalysisWorkflow.complete v = false /\
  AnalysisWorkflow.reason v = "Incomplete analysis - need more depth" /\
  citesCompetitors (AnalysisWorkflow.reason v) = false.
Proof.
  unfold AnalysisWorkflow.validateCompleteness. simpl.
  intros Hunknowns Hrisks Hcompetitors.
  rewrite Hunknowns, Hrisks, Hcompetitors. simpl.
  rewrite !andb_false_r. simpl. repeat split; reflexivity.
Qed.

Lemma validateCompleteness_four_six_two_witness :
  let v := AnalysisWorkflow.validateCompleteness
             (AnalysisWorkflow.ReadOk Sample.analysisDoc)
             (AnalysisWorkflow.ReadOk Sample.mvpDoc)
             (AnalysisWorkflow.ReadOk Sample.competitiveDoc)
             (AnalysisWorkflow.ReadOk Sample.risksDoc) in
  AnalysisWorkflow.complete v = false /\
  AnalysisWorkflow.reason v = "Incomplete analysis - need more depth" /\
  citesCompetitors (AnalysisWorkflow.reason v) = false.
Proof.
  apply (validateCompleteness_four_six_two
           (AnalysisWorkflow.ReadOk Sample.analysisDoc)
           (AnalysisWorkflow.ReadOk Sample.mvpDoc)
           (AnalysisWorkflow.ReadOk Sample.competitiveDoc)
           (AnalysisWorkflow.ReadOk Sample.risksDoc));
    vm_compute; reflexivity.
Defined.

(** ** Lookup by substring *)

Lemma prefix_append (p rest : string) : String.prefix p (p +:+ rest) = true.
Proof.
  induction p as [| c p IH]; simpl.
  - destruct rest; reflexivity.
  - destruct (ascii_dec c c) as [_ | Hne]; [exact IH | contradiction].
Qed.

Lemma includes_append (p rest : string) : JS.includes (p +:+ rest) p = true.
Proof.
  pose proof (prefix_append p rest) as Hprefix.
  destruct (p +:+ rest); cbn [JS.includes]; rewrite Hprefix; reflexivity.
Qed.

Lemma append_cons (c : ascii) (a b : string) : String c a +:+ b = String c (a +:+ b).
Proof. reflexivity. Qed.

Lemma append_nil (b : string) : EmptyString +:+ b = b.
Proof. reflexivity. Qed.

Lemma append_assoc (a b c : string) : (a +:+ b) +:+ c = a +:+ (b +:+ c).
Proof.
  induction a as [| x a IH].
  - reflexivity.
  - rewrite !append_cons, IH. reflexivity.
Qed.

Lemma find_after_misses {T : Type} (f : T -> bool) (newer older : list T) (x : T) :
  Forall (fun y => f y = false) newer -> f x = true ->
  List.find f (newer ++ x :: older) = Some x.
Proof.
  intros Hnewer Hx. induction Hnewer as [| y newer Hy _ IH]; simpl.
  - now rewrite Hx.
  - now rewrite Hy.
Qed.

Lemma commitMessage_includes_prefix (now queried suffix : string) (decision : Decision) :
  name decision = queried +:+ suffix ->
  JS.includes (commitMessage now decision) ("decision: " +:+ queried) = true.
Proof.
  intros Hname. unfold commitMessage. rewrite Hname.
  rewrite (append_assoc queried suffix).
  rewrite <- (append_assoc "decision: " queried).
  apply includes_append.
Qed.

(** C10.  When the name of a recorded decision extends the queried name
    and its commit is the first of the page whose message contains
    [decision: <queried name>], [findDecision] returns the record of that
    other decision. *)
Theorem findDecision_matches_by_substring
    (w : World) (repoName queried suffix now : string) (decision : Decision)
    (newer older : list Commit) :
  GitHub.faults w = [] ->
  GitHub.listCommits repoName 100 w =
    inr (newer ++ {| GitHub.message := commitMessage now decision |} :: older) ->
  name decision = queried +:+ suffix ->
  Forall (fun c => JS.includes (GitHub.message c) ("decision: " +:+ queried) = false) newer ->
  run (findDecision repoName queried) w =
    (inr (Some (parseDecisionFromCommit (commitMessage now decision))), w).
Proof.
  intros Hfaults Hpage Hname Hnewer.
  rewrite run_findDecision. unfold GitHub.perform. rewrite Hfaults. simpl.
  rewrite Hpage. unfold firstMatch.
  rewrite (find_after_misses _ newer older _ Hnewer).
  - reflexivity.
  - simpl. now apply commitMessage_includes_prefix with (suffix := suffix).
Qed.

Lemma findDecision_matches_by_substring_witness :
  let w := snd (run (makeDecision Sample.t1 Sample.repo "requirements" Sample.connectionPool)
                    (Sample.world "requirements" [])) in
  name Sample.connectionPool <> "use-db" /\
  run (findDecision Sample.repo "use-db") w =
    (inr (Some {| parsed_type := Some "architecture";
                  parsed_chosen := Some "pgbouncer";
                  parsed_confidence := Some (Fin (4 # 5));
                  parsed_revisitProbability := Some (Fin (1 # 5)) |}), w).
Proof.
  split; [discriminate |].
  apply (findDecision_matches_by_substring
           (snd (run (makeDecision Sample.t1 Sample.repo "requirements" Sample.connectionPool)
                     (Sample.world "requirements" [])))
           Sample.repo "use-db" "-pool" Sample.t1 Sample.connectionPool
           [] Sample.initCommits).
  - vm_compute. reflexivity.
  - vm_compute. reflexivity.
  - vm_compute. reflexivity.
  - constructor.
Defined.

(** ** Store errors *)

Lemma serve_error_keeps_world {R : Type} (req : Request R) (w w' : World) (e : Error) :
  GitHub.serve req w = (inl e, w') -> w' = w.
Proof.
  destruct req; simpl; intros H.
  - now inversion H.
  - now inversion H.
  - destruct (GitHub.createOrUpdateFileContents _ _ _ _ _ _ w); now inversion H.
Qed.

Lemma perform_error_keeps_repos {R : Type} (req : Request R) (w w' : World) (e : Error) :
  GitHub.perform req w = (inl e, w') -> GitHub.repos w' = GitHub.repos w.
Proof.
  unfold GitHub.perform. destruct (GitHub.faults w) as [| [e0 |] rest]; intros H.
  - apply serve_error_keeps_world in H. now subst.
  - inversion H. reflexivity.
  - apply serve_error_keeps_world in H. now subst.
Qed.

Lemma perform_getContent_keeps_repos (repoName path ref : string) (w : World) :
  GitHub.repos (snd (GitHub.perform (GetContent repoName path ref) w)) = GitHub.repos w.
Proof.
  unfold GitHub.perform. destruct (GitHub.faults w) as [| [e0 |] rest]; reflexivity.
Qed.

Lemma run_appendDecision (now repoName branch : string) (decision : Decision) (w : World) :
  run (appendDecision now repoName branch decision) w =
  match GitHub.perform (GetContent repoName "DECISIONS.log" branch) w with
  | (inl e, w1) => (inl e, w1)
  | (inr currentFile, w1) =>
      match GitHub.perform
              (CreateOrUpdateFileContents repoName "DECISIONS.log"
                 (commitMessage now decision)
                 (GitHub.content currentFile +:+ NL +:+ commitMessage now decision +:+ NL +:+
                  "---" +:+ NL)
                 branch (GitHub.sha currentFile)) w1 with
      | (inl e, w2) => (inl e, w2)
      | (inr _, w2) => (inr (Made decision), w2)
      end
  end.
Proof.
  unfold appendDecision. rewrite run_bind, run_await.
  destruct (GitHub.perform (GetContent repoName "DECISIONS.log" branch) w)
    as [[e | currentFile] w1]; [reflexivity |].
  rewrite run_bind, run_await.
  destruct (GitHub.perform _ w1) as [[e | u] w2]; reflexivity.
Qed.

(** A failed append has committed nothing. *)
Lemma appendDecision_error_keeps_repos
    (now repoName branch : string) (decision : Decision) (w w' : World) (e : Error) :
  run (appendDecision now repoName branch decision) w = (inl e, w') ->
  GitHub.repos w' = GitHub.repos w.
Proof.
  rewrite run_appendDecision.
  pose proof (perform_getContent_keeps_repos repoName "DECISIONS.log" branch w) as Hread.
  destruct (GitHub.perform (GetContent repoName "DECISIONS.log" branch) w)
    as [[e1 | currentFile] w1]; simpl in Hread.
  - intros H. inversion H. subst. exact Hread.
  - destruct (GitHub.perform _ w1) as [[e2 | u] w2] eqn:Hwrite; intros H; inversion H.
    subst. apply perform_error_keeps_repos in Hwrite. congruence.
Qed.

(** C6 (counterexample).  PostgreSQL is recorded for [use-database].  A
    later proposal of MongoDB with revisit probability 0.05 is answered
    with the existing decision when the store is reachable; when the store
    cannot be reached for the lookup alone, no error is surfaced and the
    MongoDB decision is appended. *)
Lemma makeDecision_appends_after_failed_lookup :
  let w1 := snd (run (makeDecision Sample.t1 Sample.repo "requirements" Sample.postgres)
                     (Sample.world "requirements" [])) in
  let proposal := Sample.mongo (5 # 100) in
  let '(reachable, _) := run (makeDecision Sample.t2 Sample.repo "requirements" proposal) w1 in
  let '(r, w2) := run (makeDecision Sample.t2 Sample.repo "requirements" proposal)
                      (Sample.withFaults w1 [Some StoreUnavailable]) in
  reachable = inr (Existing {| parsed_type := Some "technology-choice";
                               parsed_chosen := Some "PostgreSQL";
                               parsed_confidence := Some (Fin (17 # 20));
                               parsed_revisitProbability := Some (Fin (1 # 20)) |}) /\
  r = inr (Made proposal) /\
  Sample.messages w2 "requirements" =
    commitMessage Sample.t2 proposal :: Sample.messages w1 "requirements" /\
  ~ (r = inl StoreUnavailable /\ GitHub.repos w2 = GitHub.repos w1).
Proof.
  vm_compute. repeat (split; [reflexivity |]).
  intros [Habsurd _]. discriminate Habsurd.
Qed.

(** C6 (amended).  When the store cannot be reached for the lookup,
    [findDecision] answers that there is no existing decision and
    [makeDecision] goes on to the append.  When the store cannot be
    reached for the read of [DECISIONS.log] either, that error reaches the
    caller; and whenever the call fails, nothing has been committed. *)
Theorem makeDecision_store_errors
    (now repoName branch : string) (decision : Decision)
    (w : World) (e : Error) (rest : list (option Error)) :
  GitHub.faults w = Some e :: rest ->
  let w1 := {| GitHub.repos := GitHub.repos w; GitHub.faults := rest |} in
  run (findDecision repoName (name decision)) w = (inr None, w1) /\
  run (makeDecision now repoName branch decision) w =
    run (appendDecision now repoName branch decision) w1 /\
  (forall (e' : Error) (rest' : list (option Error)),
     rest = Some e' :: rest' ->
     run (makeDecision now repoName branch decision) w =
       (inl e', {| GitHub.repos := GitHub.repos w; GitHub.faults := rest' |})) /\
  (forall (e' : Error) (w' : World),
     run (makeDecision now repoName branch decision) w = (inl e', w') ->
     GitHub.repos w' = GitHub.repos w).
Proof.
  intros Hfaults w1.
  assert (Hfind : run (findDecision repoName (name decision)) w = (inr None, w1)).
  { rewrite run_findDecision. unfold GitHub.perform. rewrite Hfaults. reflexivity. }
  assert (Hmake : run (makeDecision now repoName branch decision) w =
                  run (appendDecision now repoName branch decision) w1).
  { rewrite run_makeDecision, Hfind. reflexivity. }
  repeat split; [exact Hfind | exact Hmake | |].
  - intros e' rest' ->. rewrite Hmake, run_appendDecision. reflexivity.
  - intros e' w' Hfail. rewrite Hmake in Hfail.
    apply appendDecision_error_keeps_repos in Hfail. exact Hfail.
Qed.

Lemma makeDecision_store_errors_witness :
  let w1 := snd (run (makeDecision Sample.t1 Sample.repo "requirements" Sample.postgres)
                     (Sample.world "requirements" [])) in
  let w := Sample.withFaults w1 [Some StoreUnavailable; Some StoreUnavailable] in
  let proposal := Sample.mongo (5 # 100) in
  run (findDecision Sample.repo "use-database") w =
    (inr None, Sample.withFaults w1 [Some StoreUnavailable]) /\
  run (makeDecision Sample.t2 Sample.repo "requirements" proposal) w =
    (inl StoreUnavailable, Sample.withFaults w1 []).
Proof.
  destruct (makeDecision_store_errors Sample.t2 Sample.repo "requirements" (Sample.mongo (5 # 100))
              (Sample.withFaults
                 (snd (run (makeDecision Sample.t1 Sample.repo "requirements" Sample.postgres)
                           (Sample.world "requirements" [])))
                 [Some StoreUnavailable; Some StoreUnavailable])
              StoreUnavailable [Some StoreUnavailable] eq_refl) as [Hfind [_ [Hread _]]].
  split.
  - exact Hfind.
  - exact (Hread StoreUnavailable [] eq_refl).
Defined.

(** ** Two calls in flight *)


Section Steps.

Variables (w : World) (repoName branch : string).
Variables (r : GitHub.Repository) (b : GitHub.BranchState).
Hypothesis Hfaults : GitHub.faults w = [].
Hypothesis Hrepo : GitHub.repos w !! repoName = Some r.
Hypothesis Hbranch : GitHub.branches r !! branch = Some b.





End Steps.


Section Appended.

Variables (w : World) (repoName branch : string).
Variables (r : GitHub.Repository) (b : GitHub.BranchState).
Variables (now log : string) (decision : Decision).

Let w' : World := appended w repoName branch r b now log decision.

Lemma appended_repo :
  GitHub.repos w' !! repoName = Some (appendedRepository r branch b now log decision).
Proof. apply lookup_insert_eq. Qed.

Lemma appended_branch :
  GitHub.branches (appendedRepository r branch b now log decision) !! branch =
    Some (appendedBranch b now log decision).
Proof. apply lookup_insert_eq. Qed.

Lemma appended_log :
  GitHub.files (appendedBranch b now log decision) !! "DECISIONS.log" =
    Some (appendedLog now log decision).
Proof. apply lookup_insert_eq. Qed.

Lemma appended_history :
  GitHub.history w' repoName branch =
    {| GitHub.message := commitMessage now decision |} :: GitHub.commits b.
Proof.
  unfold GitHub.history. rewrite appended_repo, appended_branch. reflexivity.
Qed.

End Appended.



(** ** Strings *)

Lemma append_empty_r (s : string) : s +:+ EmptyString = s.
Proof.
  induction s as [| c s IH]; [reflexivity | rewrite append_cons, IH; reflexivity].
Qed.


Lemma every_append (p : ascii -> bool) (a b : string) :
  JS.every p (a +:+ b) = JS.every p a && JS.every p b.
Proof.
  induction a as [| c a IH]; [reflexivity |].
  rewrite append_cons. simpl. rewrite IH. apply andb_assoc.
Qed.

Lemma split_without (sep : ascii) (s : string) :
  JS.every (differs sep) s = true -> JS.split sep s = [s].
Proof.
  induction s as [| x s IH]; [reflexivity |].
  simpl. intros H. apply andb_prop in H as [Hx Hs]. unfold differs in Hx.
  destruct (Ascii.eqb x sep); [discriminate |]. now rewrite (IH Hs).
Qed.

Lemma split_append (sep : ascii) (a b : string) :
  JS.every (differs sep) a = true ->
  JS.split sep (a +:+ String sep b) = a :: JS.split sep b.
Proof.
  induction a as [| x a IH]; intros H.
  - rewrite append_nil. simpl. now rewrite Ascii.eqb_refl.
  - simpl in H. apply andb_prop in H as [Hx Ha]. unfold differs in Hx.
    rewrite append_cons. simpl.
    destruct (Ascii.eqb x sep); [discriminate |]. now rewrite (IH Ha).
Qed.



(** ** Numbers written and read back *)

Lemma every_digit_string_of_uint (u : Decimal.uint) :
  JS.every JS.isDigit (NilEmpty.string_of_uint u) = true.
Proof. induction u; simpl; try rewrite IHu; reflexivity. Qed.

Lemma digitsOf_digits (m : N) : JS.every JS.isDigit (JS.digitsOf m) = true.
Proof. apply every_digit_string_of_uint. Qed.











(** ** Decimal expansions *)




Lemma every_impl (p q : ascii -> bool) (s : string) :
  (forall c, p c = true -> q c = true) -> JS.every p s = true -> JS.every q s = true.
Proof.
  intros Himpl. induction s as [| c s IH]; [reflexivity |].
  simpl. intros H. apply andb_prop in H as [Hc Hs].
  now rewrite (Himpl c Hc), (IH Hs).
Qed.




(** ** The commit message and its parser *)



Lemma labelled_singleLine (label v : string) :
  singleLine label = true -> singleLine v = true -> JS.every (differs LF) (label +:+ v) = true.
Proof. unfold singleLine. intros Hl Hv. now rewrite every_append, Hl, Hv. Qed.










(** * Further properties of the code *)

(** ** [getNextStage] *)

(** The eight cases of [getNextStage]: the seven stages and any other
    string. *)
Lemma getNextStage_cases (current : string) :
  (current = "requirements" /\ getNextStage current = "analysis") \/
  (current = "analysis" /\ getNextStage current = "design") \/
  (current = "design" /\ getNextStage current = "implementation") \/
  (current = "implementation" /\ getNextStage current = "testing") \/
  (current = "testing" /\ getNextStage current = "validation") \/
  (current = "validation" /\ getNextStage current = "deployment") \/
  (current = "deployment" /\ getNextStage current = "deployment") \/
  (~ In current stages /\ getNextStage current = "requirements").
Proof.
  unfold getNextStage, Builtins.indexOf, stages. cbn [Builtins.indexOfFrom].
  destruct (String.eqb_spec "requirements" current) as [<- | H1]; [vm_compute; tauto |].
  destruct (String.eqb_spec "analysis" current) as [<- | H2]; [vm_compute; tauto |].
  destruct (String.eqb_spec "design" current) as [<- | H3]; [vm_compute; tauto |].
  destruct (String.eqb_spec "implementation" current) as [<- | H4]; [vm_compute; tauto |].
  destruct (String.eqb_spec "testing" current) as [<- | H5]; [vm_compute; tauto |].
  destruct (String.eqb_spec "validation" current) as [<- | H6]; [vm_compute; tauto |].
  destruct (String.eqb_spec "deployment" current) as [<- | H7]; [vm_compute; tauto |].
  repeat right. split; [| reflexivity].
  simpl. intros [H | [H | [H | [H | [H | [H | [H | []]]]]]]]; congruence.
Qed.

(** X1.  Whatever string it is given, [getNextStage] returns one of the
    seven stage names: the index it reads is never outside the list. *)
Theorem getNextStage_is_a_stage (current : string) : In (getNextStage current) stages.
Proof.
  destruct (getNextStage_cases current)
    as [[_ ->] | [[_ ->] | [[_ ->] | [[_ ->] | [[_ ->] | [[_ ->] | [[_ ->] | [_ ->]]]]]]]];
    simpl; tauto.
Qed.

(** X2.  A string that is not a stage name has index [-1], which is below
    the last index: its next stage is the first stage, [requirements]. *)
Theorem getNextStage_unknown_stage (current : string) :
  ~ In current stages -> getNextStage current = "requirements".
Proof.
  intros Hunknown.
  destruct (getNextStage_cases current)
    as [[-> _] | [[-> _] | [[-> _] | [[-> _] | [[-> _] | [[-> _] | [[-> _] | [_ H]]]]]]]];
    try (exfalso; apply Hunknown; simpl; tauto).
  exact H.
Qed.

Lemma getNextStage_unknown_stage_witness :
  getNextStage "implementation/develop" = "requirements".
Proof.
  apply (getNextStage_unknown_stage "implementation/develop").
  simpl. intros [H | [H | [H | [H | [H | [H | [H | []]]]]]]]; discriminate H.
Defined.

(** X3.  A stage before the last one is followed by the stage at the next
    position, and [deployment] is the only string that is its own next
    stage. *)
Theorem getNextStage_moves_one_forward (current : string) :
  (forall i : nat, (i < 6)%nat -> nth_error stages i = Some current ->
                   nth_error stages (S i) = Some (getNextStage current)) /\
  (getNextStage current = current <-> current = "deployment").
Proof.
  split.
  - intros i Hi Hat.
    do 6 (destruct i as [| i]; [injection Hat as <-; reflexivity |]). lia.
  - destruct (getNextStage_cases current)
      as [[-> ->] | [[-> ->] | [[-> ->] | [[-> ->] | [[-> ->] | [[-> ->] | [[-> ->] | [Hout ->]]]]]]]];
      split; intros H; try discriminate H; try reflexivity;
      exfalso; apply Hout; subst current; simpl; tauto.
Qed.

(** X4.  From any string, seven or more applications of [getNextStage]
    end at [deployment]. *)
Theorem getNextStage_reaches_deployment (current : string) (n : nat) :
  (7 <= n)%nat -> Nat.iter n getNextStage current = "deployment".
Proof.
  intros Hn. replace n with ((n - 7) + 7)%nat by lia.
  rewrite Nat.iter_add.
  assert (Hseven : Nat.iter 7 getNextStage current = "deployment").
  { cbn [Nat.iter nat_rect].
    destruct (getNextStage_cases current)
      as [[_ ->] | [[_ ->] | [[_ ->] | [[_ ->] | [[_ ->] | [[_ ->] | [[_ ->] | [_ ->]]]]]]]];
      reflexivity. }
  rewrite Hseven. clear. induction (n - 7)%nat as [| k IH]; [reflexivity |].
  rewrite Nat.iter_succ, IH. reflexivity.
Qed.

Lemma getNextStage_reaches_deployment_witness :
  Nat.iter 7 getNextStage "main" = "deployment".
Proof. apply (getNextStage_reaches_deployment "main" 7). lia. Defined.

(** ** The [detect-stage] step *)

Lemma stripPrefix_append (p rest : string) : Regex.stripPrefix p (p +:+ rest) = Some rest.
Proof.
  induction p as [| c p IH].
  - destruct rest; reflexivity.
  - rewrite append_cons. simpl. rewrite Ascii.eqb_refl. exact IH.
Qed.

Lemma replaceFirst_at_start (pattern replacement rest : string) :
  Builtins.replaceFirst pattern replacement (pattern +:+ rest) = replacement +:+ rest.
Proof.
  pose proof (stripPrefix_append pattern rest) as Hstrip.
  destruct (pattern +:+ rest); cbn [Builtins.replaceFirst]; rewrite Hstrip; reflexivity.
Qed.

(** X5.  A push to a sub-branch [refs/heads/<stage>/<sub>] is a push to
    the stage [<stage>]: the stage is the part of the branch name before
    its first slash. *)
Theorem detectStage_of_sub_branch (stage sub : string) :
  JS.every (differs "/") stage = true ->
  Progression.detectStage ("refs/heads/" +:+ stage +:+ "/" +:+ sub) =
    {| Progression.currentStage := stage;
       Progression.nextStage := getNextStage stage;
       Progression.branch := stage +:+ "/" +:+ sub |}.
Proof.
  intros Hstage. unfold Progression.detectStage.
  rewrite (replaceFirst_at_start "refs/heads/" EmptyString (stage +:+ "/" +:+ sub)).
  rewrite append_nil.
  change (stage +:+ "/" +:+ sub) with (stage +:+ String "/" sub).
  rewrite (split_append "/" stage sub Hstage). reflexivity.
Qed.

Lemma detectStage_of_sub_branch_witness :
  Progression.detectStage "refs/heads/implementation/develop" =
    {| Progression.currentStage := "implementation";
       Progression.nextStage := "testing";
       Progression.branch := "implementation/develop" |}.
Proof.
  exact (detectStage_of_sub_branch "implementation" "develop" eq_refl).
Defined.

(** ** The [create-pr] step *)

(** X6.  The pull request of the [create-pr] step goes from the branch of
    the stage after the current one into the branch of the stage after
    that; it asks to merge a branch into itself exactly when the current
    stage is [validation] or [deployment]. *)
Theorem createPR_head_and_base (repoName ref : string) (generated : PullRequest.Generated) :
  let stage := Progression.currentStage (Progression.detectStage ref) in
  let pr := Progression.createPR repoName ref generated in
  PullRequest.head pr = getNextStage stage /\
  PullRequest.base pr = getNextStage (getNextStage stage) /\
  (PullRequest.head pr = PullRequest.base pr <->
   stage = "validation" \/ stage = "deployment").
Proof.
  cbv zeta. unfold Progression.createPR, createStagePR.
  cbn [PullRequest.head PullRequest.base Progression.nextStage Progression.currentStage
       Progression.detectStage].
  set (stage := nth 0 (JS.split "/" (Builtins.replaceFirst "refs/heads/" EmptyString ref))
                    EmptyString).
  split; [reflexivity |]. split; [reflexivity |].
  destruct (getNextStage_cases stage)
    as [[-> ->] | [[-> ->] | [[-> ->] | [[-> ->] | [[-> ->] | [[-> ->] | [[-> ->] | [Hout ->]]]]]]]];
    split; intros H; try (vm_compute in H; discriminate H); try tauto;
    try (destruct H as [H | H]; discriminate H).
  destruct H as [-> | ->]; exfalso; apply Hout; simpl; tauto.
Qed.

(** ** [checkImplementationComplete] and the [check-completeness] step *)

(** X7.  [checkImplementationComplete] answers [Implementation complete]
    exactly when a non-empty [src/] or [implementation/src/] entry and a
    non-empty [tests/] or [implementation/tests/] entry exist; an empty
    entry counts as missing.  Its [complete] is then the text of the tests
    entry, and is never a boolean. *)
Theorem checkImplementationComplete_spec (content : gmap string string) :
  let verdict := Progression.checkImplementationComplete content in
  let present key := Builtins.truthy (Builtins.property content key) in
  Builtins.truthy (Progression.complete verdict) =
    (present "src/" || present "implementation/src/") &&
    (present "tests/" || present "implementation/tests/") /\
  (Progression.reason verdict = "Implementation complete" <->
   Builtins.truthy (Progression.complete verdict) = true) /\
  (forall b : bool, Progression.complete verdict <> Builtins.Boolean b).
Proof.
  cbv zeta. unfold Progression.checkImplementationComplete, Builtins.property.
  cbn [Progression.complete Progression.reason].
  destruct (content !! "src/") as [[| c1 s1] |];
    destruct (content !! "implementation/src/") as [[| c2 s2] |];
    destruct (content !! "tests/") as [[| c3 s3] |];
    destruct (content !! "implementation/tests/") as [[| c4 s4] |];
    cbn; (split; [reflexivity |]); (split; [split; intros H; (reflexivity || discriminate H) |]);
    intros b; discriminate.
Qed.

(** X8.  The [load-content] step yields the empty object, so the
    [check-completeness] step finds no stage complete: for a push to any
    ref the condition of [generate-next-stage] is false, and the reason is
    one of three fixed texts. *)
Theorem progression_never_generates (ref : string) :
  Progression.generates ref = false /\
  In (Progression.reasonOf
        (Progression.checkCompleteness
           (Progression.currentStage (Progression.detectStage ref)) Progression.loadContent))
     ["Requirements incomplete"; "Missing code or tests"; "Stage check not implemented"].
Proof.
  unfold Progression.generates, Progression.checkCompleteness.
  destruct (String.eqb _ "requirements"); [vm_compute; tauto |].
  destruct (String.eqb _ "implementation"); vm_compute; tauto.
Qed.

(** ** [checkRequirementsComplete] and [parseAssumptions], continued *)

Lemma of_nat_succ_pos (n : nat) : Zpos (Pos.of_nat (S n)) = Z.of_nat (S n).
Proof. rewrite <- Pos.of_nat_succ, Zpos_P_of_succ_nat. lia. Qed.

(** The comparison [validated / critical >= 0.8] on lengths. *)
Lemma ge_divLengths (validated critical : nat) :
  (validated <= critical)%nat ->
  Number.ge (Number.divLengths validated critical) (Fin (8 # 10)) = true <->
  (0 < critical)%nat /\ (4 * critical <= 5 * validated)%nat.
Proof.
  intros Hle. destruct critical as [| c].
  - assert (validated = 0%nat) as -> by lia. simpl. split; [discriminate | lia].
  - unfold Number.divLengths, Number.ge.
    rewrite Qle_bool_iff, Qred_correct. unfold Qle. cbn [Qnum Qden].
    rewrite of_nat_succ_pos. lia.
Qed.

Lemma filter_length_le {T : Type} (f : T -> bool) (l : list T) :
  (length (List.filter f l) <= length l)%nat.
Proof. induction l as [| x l IH]; simpl; [lia | destruct (f x); simpl; lia]. Qed.

(** X9.  The verdict is complete exactly when the requirements are longer
    than 100 code units, the assumptions and the goals are not empty,
    there is at least one critical assumption, and at least four in every
    five critical assumptions are validated. *)
Theorem checkRequirementsComplete_iff (content : gmap string string) :
  let assumptions :=
    Waterfall.parseAssumptions (Waterfall.textOrEmpty content "ASSUMPTIONS.md") in
  let critical :=
    List.filter (fun a => Number.gt (Waterfall.criticality a) (Fin (7 # 10))) assumptions in
  let validated := List.filter (fun a => Waterfall.validated a) critical in
  Waterfall.complete (Waterfall.checkRequirementsComplete content) = true <->
  Waterfall.longerThan content "REQUIREMENTS.md" 100 = true /\
  Waterfall.longerThan content "ASSUMPTIONS.md" 0 = true /\
  Waterfall.longerThan content "GOALS.md" 0 = true /\
  (0 < length critical)%nat /\
  (4 * length critical <= 5 * length validated)%nat.
Proof.
  cbv zeta. unfold Waterfall.checkRequirementsComplete. cbn [Waterfall.complete].
  rewrite !andb_true_iff, ge_divLengths by apply filter_length_le. tauto.
Qed.

(** X10.  The critical validation rate that the verdict reports is [NaN]
    (no critical assumption) or a number between 0 and 1. *)
Theorem criticalValidationRate_range (content : gmap string string) :
  let rate := Waterfall.criticalValidationRate
                (Waterfall.details (Waterfall.checkRequirementsComplete content)) in
  rate = NaN \/ exists q : Q, rate = Fin q /\ (0 <= q)%Q /\ (q <= 1)%Q.
Proof.
  cbv zeta. unfold Waterfall.checkRequirementsComplete.
  cbn [Waterfall.details Waterfall.criticalValidationRate].
  set (critical := List.filter (fun a => Number.gt _ _) _).
  set (validated := List.filter _ critical).
  assert (Hle : (length validated <= length critical)%nat) by apply filter_length_le.
  destruct (length critical) as [| c].
  - left. assert (length validated = 0%nat) as -> by lia. reflexivity.
  - right. unfold Number.divLengths. eexists. split; [reflexivity |].
    rewrite !Qred_correct. unfold Qle. cbn [Qnum Qden].
    rewrite of_nat_succ_pos. lia.
Qed.

Lemma split_nonempty (sep : ascii) (s : string) : JS.split sep s <> [].
Proof.
  destruct s as [| c s]; simpl; [discriminate |].
  destruct (Ascii.eqb c sep); [discriminate |].
  destruct (JS.split sep s); discriminate.
Qed.

(** Splitting at every separator: the pieces of [a] and then those of [b]. *)
Lemma split_join (sep : ascii) (a b : string) :
  JS.split sep (a +:+ String sep b) = JS.split sep a ++ JS.split sep b.
Proof.
  induction a as [| x a IH].
  - rewrite append_nil. simpl. now rewrite Ascii.eqb_refl.
  - rewrite append_cons. simpl. destruct (Ascii.eqb x sep).
    + now rewrite IH.
    + rewrite IH. pose proof (split_nonempty sep a) as Hne.
      destruct (JS.split sep a); [contradiction | reflexivity].
Qed.

Lemma parseAssumptions_from (lines : list string) (found : list Waterfall.Assumption) :
  fold_left Waterfall.parseAssumptionLine lines found =
  found ++ fold_left Waterfall.parseAssumptionLine lines [].
Proof.
  revert found. induction lines as [| line lines IH]; intros found; simpl.
  - now rewrite app_nil_r.
  - rewrite IH. rewrite (IH (Waterfall.parseAssumptionLine [] line)).
    rewrite app_assoc. f_equal.
    unfold Waterfall.parseAssumptionLine.
    destruct (JS.startsWith line "##"); [reflexivity | now rewrite app_nil_r].
Qed.

(** X11.  The assumptions of two documents joined by a line feed are
    those of the first followed by those of the second. *)
Theorem parseAssumptions_joined (first second : string) :
  Waterfall.parseAssumptions (first +:+ NL +:+ second) =
  Waterfall.parseAssumptions first ++ Waterfall.parseAssumptions second.
Proof.
  unfold Waterfall.parseAssumptions.
  change (first +:+ NL +:+ second) with (first +:+ String LF second).
  rewrite split_join, fold_left_app. apply parseAssumptions_from.
Qed.

(** X12.  Every line that starts with [##] is one assumption, whatever
    else it holds: there are as many assumptions as such lines. *)
Theorem parseAssumptions_one_per_heading (content : string) :
  length (Waterfall.parseAssumptions content) =
  length (List.filter (fun line => JS.startsWith line "##") (JS.split LF content)).
Proof.
  unfold Waterfall.parseAssumptions.
  induction (JS.split LF content) as [| line lines IH]; [reflexivity |].
  simpl fold_left. rewrite parseAssumptions_from, length_app, IH.
  unfold Waterfall.parseAssumptionLine. simpl List.filter.
  destruct (JS.startsWith line "##"); reflexivity.
Qed.

(** ** [parseDecisionFromCommit], continued *)

(** X13.  When several lines carry the label [Chosen], the last one
    decides: a message that ends with a [Chosen:] line has the first
    colon-free part of that line, trimmed, as its chosen alternative,
    and the other properties of the lines before it. *)
Theorem parseDecisionFromCommit_last_chosen_wins (message value : string) :
  singleLine value = true ->
  parseDecisionFromCommit (message +:+ NL +:+ "Chosen:" +:+ value) =
    {| parsed_type := parsed_type (parseDecisionFromCommit message);
       parsed_chosen := Some (JS.trim (nth 0 (JS.split ":" value) EmptyString));
       parsed_confidence := parsed_confidence (parseDecisionFromCommit message);
       parsed_revisitProbability :=
         parsed_revisitProbability (parseDecisionFromCommit message) |}.
Proof.
  intros Hvalue. unfold parseDecisionFromCommit.
  change (message +:+ NL +:+ "Chosen:" +:+ value)
    with (message +:+ String LF ("Chosen:" +:+ value)).
  rewrite split_join, fold_left_app.
  rewrite (split_without LF ("Chosen:" +:+ value)
             (labelled_singleLine "Chosen:" value eq_refl Hvalue)).
  cbn [fold_left].
  set (before := fold_left parseLine (JS.split LF message) emptyParsed).
  unfold parseLine.
  change (JS.startsWith ("Chosen:" +:+ value) "Decision Type:") with false.
  unfold JS.startsWith at 1. rewrite (prefix_append "Chosen:" value). cbv iota.
  unfold afterColon.
  change ("Chosen:" +:+ value) with ("Chosen" +:+ String ":" value).
  rewrite split_join. reflexivity.
Qed.

Lemma parseDecisionFromCommit_last_chosen_wins_witness :
  parsed_chosen
    (parseDecisionFromCommit
       (commitMessage Sample.t1 Sample.postgres +:+ NL +:+ "Chosen:" +:+ " SQLite: for now")) =
    Some "SQLite".
Proof.
  rewrite (parseDecisionFromCommit_last_chosen_wins
             (commitMessage Sample.t1 Sample.postgres) " SQLite: for now" eq_refl).
  reflexivity.
Defined.

(** ** [findDecision], continued *)

Lemma perform_listCommits_keeps_repos (repoName : string) (n : nat) (w : World) :
  GitHub.repos (snd (GitHub.perform (ListCommits repoName n) w)) = GitHub.repos w.
Proof.
  unfold GitHub.perform. destruct (GitHub.faults w) as [| [e0 |] rest]; reflexivity.
Qed.

(** X14.  [findDecision] never throws and never writes: in every state of
    the store and for every fault it returns an answer and leaves all
    repositories as they are. *)
Theorem findDecision_total_and_read_only (repoName decisionName : string) (w : World) :
  exists (answer : option ParsedDecision) (w' : World),
    run (findDecision repoName decisionName) w = (inr answer, w') /\
    GitHub.repos w' = GitHub.repos w.
Proof.
  rewrite run_findDecision.
  pose proof (perform_listCommits_keeps_repos repoName 100 w) as Hrepos.
  destruct (GitHub.perform (ListCommits repoName 100) w) as [[e | commits] w'];
    simpl in Hrepos; eauto.
Qed.

Lemma find_none {T : Type} (f : T -> bool) (l : list T) :
  Forall (fun x => f x = false) l -> List.find f l = None.
Proof.
  induction 1 as [| x l Hx _ IH]; simpl; [reflexivity | now rewrite Hx].
Qed.

(** X15.  [findDecision] reads one page of 100 commits: a decision of the
    default branch that lies under 100 or more later commits in which it
    is not mentioned is not found. *)
Theorem findDecision_reads_one_page
    (w : World) (repoName decisionName : string)
    (r : GitHub.Repository) (b : GitHub.BranchState) (newer older : list Commit) :
  GitHub.faults w = [] ->
  GitHub.repos w !! repoName = Some r ->
  GitHub.branches r !! GitHub.default_branch r = Some b ->
  GitHub.commits b = newer ++ older ->
  (100 <= length newer)%nat ->
  Forall (fun c => JS.includes (GitHub.message c) ("decision: " +:+ decisionName) = false)
         newer ->
  run (findDecision repoName decisionName) w = (inr None, w).
Proof.
  intros Hfaults Hrepo Hbranch Hcommits Hlen Hnewer.
  rewrite (findDecision_observed _ _ _ Hfaults).
  unfold observed, GitHub.listCommits. rewrite Hrepo, Hbranch, Hcommits.
  rewrite take_app_le by exact Hlen.
  unfold firstMatch. rewrite find_none; [reflexivity |].
  now apply Forall_take.
Qed.

Lemma findDecision_reads_one_page_witness :
  In {| GitHub.message := commitMessage Sample.t1 Sample.postgres |}
     (GitHub.history Sample2.busyWorld Sample.repo "main") /\
  run (findDecision Sample.repo "use-database") Sample2.busyWorld =
    (inr None, Sample2.busyWorld).
Proof.
  split.
  - vm_compute. do 100 right. left. reflexivity.
  - apply (findDecision_reads_one_page Sample2.busyWorld Sample.repo "use-database"
             {| GitHub.default_branch := "main";
                GitHub.branches := {[ "main" := Sample2.busyBranch ]} |}
             Sample2.busyBranch
             (repeat {| GitHub.message := "docs: update notes" |} 100)
             [{| GitHub.message := commitMessage Sample.t1 Sample.postgres |};
              {| GitHub.message := "Initial commit" |}]).
    + reflexivity.
    + reflexivity.
    + reflexivity.
    + reflexivity.
    + vm_compute. lia.
    + apply Forall_forall. intros c Hc. apply list_elem_of_In, repeat_spec in Hc. subst c.
      vm_compute. reflexivity.
Defined.

(** ** [makeDecision], continued *)

Lemma perform_getContent_ok (repoName path ref : string) (w w1 : World) (file : GitHub.FileData) :
  GitHub.perform (GetContent repoName path ref) w = (inr file, w1) ->
  GitHub.repos w1 = GitHub.repos w /\
  exists (r : GitHub.Repository) (b : GitHub.BranchState) (text : string),
    GitHub.repos w !! repoName = Some r /\
    GitHub.branches r !! ref = Some b /\
    GitHub.files b !! path = Some text /\
    file = {| GitHub.content := text; GitHub.sha := GitHub.blobSha text |}.
Proof.
  intros Hperform.
  assert (Hget : GitHub.getContent repoName path ref w = inr file /\
                 GitHub.repos w1 = GitHub.repos w).
  { unfold GitHub.perform in Hperform.
    destruct (GitHub.faults w) as [| [e0 |] rest]; cbn [GitHub.serve] in Hperform;
      try discriminate Hperform; injection Hperform as Hget <-; split; auto. }
  destruct Hget as [Hget Hrepos]. split; [exact Hrepos |].
  unfold GitHub.getContent in Hget.
  destruct (GitHub.repos w !! repoName) as [r |] eqn:Hrepo; [| discriminate].
  destruct (GitHub.branches r !! ref) as [b |] eqn:Hbranch; [| discriminate].
  destruct (GitHub.files b !! path) as [text |] eqn:Hfile; [| discriminate].
  injection Hget as <-. exists r, b, text. repeat split; assumption || reflexivity.
Qed.

Lemma perform_write_ok (repoName path msg text branch sha : string) (w w2 : World) (u : unit) :
  GitHub.perform (CreateOrUpdateFileContents repoName path msg text branch sha) w = (inr u, w2) ->
  exists (r : GitHub.Repository) (b : GitHub.BranchState) (old : string),
    GitHub.repos w !! repoName = Some r /\
    GitHub.branches r !! branch = Some b /\
    GitHub.files b !! path = Some old /\
    GitHub.repos w2 =
      <[repoName :=
          {| GitHub.default_branch := GitHub.default_branch r;
             GitHub.branches :=
               <[branch := {| GitHub.commits := {| GitHub.message := msg |} :: GitHub.commits b;
                              GitHub.files := <[path := text]> (GitHub.files b) |}]>
                 (GitHub.branches r) |}]> (GitHub.repos w).
Proof.
  intros Hperform.
  assert (Hwrite : exists faults',
            GitHub.createOrUpdateFileContents repoName path msg text branch sha
              {| GitHub.repos := GitHub.repos w; GitHub.faults := faults' |} = inr w2).
  { unfold GitHub.perform in Hperform.
    destruct (GitHub.faults w) as [| [e0 |] rest] eqn:Hfaults; cbn [GitHub.serve] in Hperform;
      try discriminate Hperform.
    - exists []. destruct w as [repos faults]. simpl in Hfaults. subst faults.
      destruct (GitHub.createOrUpdateFileContents _ _ _ _ _ _ _); [discriminate |].
      inversion Hperform; subst; reflexivity.
    - exists rest.
      destruct (GitHub.createOrUpdateFileContents _ _ _ _ _ _ _); [discriminate |].
      inversion Hperform; subst; reflexivity. }
  destruct Hwrite as [faults' Hwrite].
  unfold GitHub.createOrUpdateFileContents in Hwrite. cbn [GitHub.repos GitHub.faults] in Hwrite.
  destruct (GitHub.repos w !! repoName) as [r |] eqn:Hrepo; [| discriminate].
  destruct (GitHub.branches r !! branch) as [b |] eqn:Hbranch; [| discriminate].
  destruct (GitHub.files b !! path) as [old |] eqn:Hfile; [| discriminate].
  destruct (String.eqb (GitHub.blobSha old) sha); [| discriminate].
  injection Hwrite as <-. exists r, b, old. repeat split; assumption || reflexivity.
Qed.

(** The two ways a call of [makeDecision] ends: without any change to the
    repositories, or with the proposal appended to the log of [branch]. *)
Lemma makeDecision_outcomes (now repoName branch : string) (decision : Decision)
    (w w' : World) (result : Error + Outcome) :
  run (makeDecision now repoName branch decision) w = (result, w') ->
  (GitHub.repos w' = GitHub.repos w /\ result <> inr (Made decision)) \/
  (exists (r : GitHub.Repository) (b : GitHub.BranchState) (log : string),
     GitHub.repos w !! repoName = Some r /\
     GitHub.branches r !! branch = Some b /\
     GitHub.files b !! "DECISIONS.log" = Some log /\
     result = inr (Made decision) /\
     GitHub.repos w' = GitHub.repos (appended w repoName branch r b now log decision)).
Proof.
  rewrite run_makeDecision, run_findDecision.
  pose proof (perform_listCommits_keeps_repos repoName 100 w) as Hlist.
  destruct (GitHub.perform (ListCommits repoName 100) w) as [listed w0]. simpl in Hlist.
  assert (Happend : forall res w2,
            run (appendDecision now repoName branch decision) w0 = (res, w2) ->
            (GitHub.repos w2 = GitHub.repos w /\ res <> inr (Made decision)) \/
            (exists r b log,
               GitHub.repos w !! repoName = Some r /\
               GitHub.branches r !! branch = Some b /\
               GitHub.files b !! "DECISIONS.log" = Some log /\
               res = inr (Made decision) /\
               GitHub.repos w2 = GitHub.repos (appended w repoName branch r b now log decision))).
  { intros res w2. rewrite run_appendDecision.
    destruct (GitHub.perform (GetContent repoName "DECISIONS.log" branch) w0)
      as [[e | file] w1] eqn:Hread.
    - intros [= <- <-]. left. apply perform_error_keeps_repos in Hread.
      split; [congruence | discriminate].
    - apply perform_getContent_ok in Hread
        as (Hrepos1 & r & b & log & Hrepo & Hbranch & Hlog & ->).
      cbn [GitHub.content GitHub.sha].
      destruct (GitHub.perform _ w1) as [[e | u] w3] eqn:Hwrite.
      + intros [= <- <-]. left. apply perform_error_keeps_repos in Hwrite.
        split; [congruence | discriminate].
      + intros [= <- <-]. right.
        apply perform_write_ok in Hwrite as (r' & b' & old & Hrepo' & Hbranch' & Hold & Hrepos3).
        rewrite Hrepos1, Hrepo in Hrepo'. injection Hrepo' as <-.
        rewrite Hbranch in Hbranch'. injection Hbranch' as <-.
        rewrite Hrepos1, Hlist in Hrepos3. rewrite Hlist in Hrepo.
        exists r, b, log. repeat split; assumption. }
  destruct listed as [e | commits].
  - apply Happend.
  - destruct (firstMatch (name decision) commits) as [found |]; [| apply Happend].
    destruct (Number.lt (revisitProbability decision) (Fin (7 # 10))); [| apply Happend].
    intros [= <- <-]. left. split; [exact Hlist | discriminate].
Qed.

Lemma history_appended (w : World) (repoName branch : string)
    (r : GitHub.Repository) (b : GitHub.BranchState) (now log : string) (decision : Decision)
    (w' : World) :
  GitHub.repos w !! repoName = Some r ->
  GitHub.branches r !! branch = Some b ->
  GitHub.repos w' = GitHub.repos (appended w repoName branch r b now log decision) ->
  GitHub.history w' repoName branch =
    {| GitHub.message := commitMessage now decision |} :: GitHub.history w repoName branch.
Proof.
  intros Hrepo Hbranch Hrepos.
  pose proof (appended_history w repoName branch r b now log decision) as Hhistory.
  unfold GitHub.history in *. rewrite Hrepos, Hhistory, Hrepo, Hbranch. reflexivity.
Qed.

(** X16.  A call of [makeDecision] puts at most one commit on [branch]:
    afterwards the history of the branch is what it was, or what it was
    under one new commit whose message is the commit message of the
    proposal; in the second case the proposal is what the call returns. *)
Theorem makeDecision_commits_at_most_once (now repoName branch : string) (decision : Decision)
    (w w' : World) (result : Error + Outcome) :
  run (makeDecision now repoName branch decision) w = (result, w') ->
  GitHub.history w' repoName branch = GitHub.history w repoName branch \/
  (GitHub.history w' repoName branch =
     {| GitHub.message := commitMessage now decision |} :: GitHub.history w repoName branch /\
   result = inr (Made decision)).
Proof.
  intros Hrun. apply makeDecision_outcomes in Hrun
    as [[Hrepos _] | (r & b & log & Hrepo & Hbranch & _ & -> & Hrepos)].
  - left. unfold GitHub.history. now rewrite Hrepos.
  - right. split; [| reflexivity]. now apply (history_appended w _ _ r b now log).
Qed.

Lemma makeDecision_commits_at_most_once_witness :
  let w := Sample.world "requirements" [] in
  let w' := snd (run (makeDecision Sample.t1 Sample.repo "requirements" Sample.postgres) w) in
  GitHub.history w' Sample.repo "requirements" = GitHub.history w Sample.repo "requirements" \/
  (GitHub.history w' Sample.repo "requirements" =
     {| GitHub.message := commitMessage Sample.t1 Sample.postgres |} ::
     GitHub.history w Sample.repo "requirements" /\
   fst (run (makeDecision Sample.t1 Sample.repo "requirements" Sample.postgres) w) =
     inr (Made Sample.postgres)).
Proof.
  apply (makeDecision_commits_at_most_once Sample.t1 Sample.repo "requirements" Sample.postgres
           (Sample.world "requirements" [])).
  apply surjective_pairing.
Defined.

(** X17.  [makeDecision] touches no other branch and no other repository:
    the commits and the files of every branch other than [branch] of
    [repoName] are what they were, whatever the call returns. *)
Theorem makeDecision_leaves_other_branches (now repoName branch : string) (decision : Decision)
    (w w' : World) (result : Error + Outcome) (otherRepo otherBranch : string) :
  run (makeDecision now repoName branch decision) w = (result, w') ->
  otherRepo <> repoName \/ otherBranch <> branch ->
  branchState w' otherRepo otherBranch = branchState w otherRepo otherBranch.
Proof.
  intros Hrun Hother. apply makeDecision_outcomes in Hrun
    as [[Hrepos _] | (r & b & log & Hrepo & Hbranch & _ & _ & Hrepos)];
    unfold branchState; rewrite Hrepos; [reflexivity |].
  unfold appended. cbn [GitHub.repos].
  destruct (decide (otherRepo = repoName)) as [-> | Hne].
  - rewrite lookup_insert_eq, Hrepo. cbn [appendedRepository GitHub.branches].
    destruct Hother as [Hne | Hne]; [contradiction |].
    now rewrite lookup_insert_ne by congruence.
  - now rewrite lookup_insert_ne by congruence.
Qed.

Lemma makeDecision_leaves_other_branches_witness :
  let w := Sample.world "requirements" [] in
  let w' := snd (run (makeDecision Sample.t1 Sample.repo "requirements" Sample.postgres) w) in
  branchState w' Sample.repo "main" = Some Sample.mainBranch.
Proof.
  cbv zeta.
  rewrite (makeDecision_leaves_other_branches Sample.t1 Sample.repo "requirements"
             Sample.postgres (Sample.world "requirements" []) _ _ Sample.repo "main"
             (surjective_pairing _)).
  - reflexivity.
  - right. discriminate.
Defined.

(** X18.  [DECISIONS.log] only grows: after a call of [makeDecision] the
    log of [branch] is still there and begins with the text it had
    before. *)
Theorem makeDecision_log_only_grows (now repoName branch log : string) (decision : Decision)
    (w w' : World) (result : Error + Outcome) :
  run (makeDecision now repoName branch decision) w = (result, w') ->
  decisionsLogOf w repoName branch = Some log ->
  exists log' : string,
    decisionsLogOf w' repoName branch = Some log' /\ String.prefix log log' = true.
Proof.
  intros Hrun Hlog. apply makeDecision_outcomes in Hrun
    as [[Hrepos _] | (r & b & log0 & Hrepo & Hbranch & Hlog0 & _ & Hrepos)].
  - exists log. split.
    + unfold decisionsLogOf, branchState in *. now rewrite Hrepos.
    + rewrite <- (append_empty_r log) at 2. apply prefix_append.
  - assert (log0 = log) as ->.
    { unfold decisionsLogOf, branchState in Hlog. rewrite Hrepo, Hbranch in Hlog. congruence. }
    exists (appendedLog now log decision). split.
    + unfold decisionsLogOf, branchState. rewrite Hrepos.
      rewrite appended_repo, appended_branch. apply appended_log.
    + apply prefix_append.
Qed.

Lemma makeDecision_log_only_grows_witness :
  let w := Sample.world "requirements" [] in
  let w' := snd (run (makeDecision Sample.t1 Sample.repo "requirements" Sample.postgres) w) in
  exists log' : string,
    decisionsLogOf w' Sample.repo "requirements" = Some log' /\
    String.prefix Sample.decisionsLog log' = true.
Proof.
  apply (makeDecision_log_only_grows Sample.t1 Sample.repo "requirements" Sample.decisionsLog
           Sample.postgres (Sample.world "requirements" []) _ _ (surjective_pairing _)).
  reflexivity.
Defined.

(** X19.  A decision that is not found is recorded: on a reachable store
    whose [branch] carries [DECISIONS.log], [makeDecision] returns the
    proposal, puts one commit with the commit message on [branch], and
    appends a line feed, the message, a line feed and [---] to the log. *)
Theorem makeDecision_records_new_decision (now repoName branch log : string)
    (decision : Decision) (w : World) (r : GitHub.Repository) (b : GitHub.BranchState) :
  GitHub.faults w = [] ->
  observed w repoName (name decision) = None ->
  GitHub.repos w !! repoName = Some r ->
  GitHub.branches r !! branch = Some b ->
  GitHub.files b !! "DECISIONS.log" = Some log ->
  exists w' : World,
    run (makeDecision now repoName branch decision) w = (inr (Made decision), w') /\
    GitHub.history w' repoName branch =
      {| GitHub.message := commitMessage now decision |} :: GitHub.commits b /\
    decisionsLogOf w' repoName branch =
      Some (log +:+ NL +:+ commitMessage now decision +:+ NL +:+ "---" +:+ NL).
Proof.
  intros Hfaults Hnone Hrepo Hbranch Hlog.
  exists (appended w repoName branch r b now log decision). split; [| split].
  - rewrite run_makeDecision, (findDecision_observed _ _ _ Hfaults), Hnone.
    now apply run_appendDecision_ok.
  - apply appended_history.
  - unfold decisionsLogOf, branchState.
    rewrite appended_repo, appended_branch. apply appended_log.
Qed.

Lemma makeDecision_records_new_decision_witness :
  exists w' : World,
    run (makeDecision Sample.t1 Sample.repo "requirements" Sample.postgres)
        (Sample.world "main" []) = (inr (Made Sample.postgres), w') /\
    GitHub.history w' Sample.repo "requirements" =
      {| GitHub.message := commitMessage Sample.t1 Sample.postgres |} :: Sample.initCommits /\
    decisionsLogOf w' Sample.repo "requirements" =
      Some (Sample.decisionsLog +:+ NL +:+ commitMessage Sample.t1 Sample.postgres +:+ NL +:+
            "---" +:+ NL).
Proof.
  exact (makeDecision_records_new_decision Sample.t1 Sample.repo "requirements"
           Sample.decisionsLog Sample.postgres (Sample.world "main" [])
           {| GitHub.default_branch := "main";
              GitHub.branches := {[ "main" := Sample.mainBranch;
                                    "requirements" := Sample.requirementsBranch ]} |}
           Sample.requirementsBranch eq_refl eq_refl eq_refl eq_refl eq_refl).
Defined.

(** X20.  When a decision is found and the revisit probability of the
    proposal is below 0.7, [makeDecision] returns the record that was
    found and makes no other store call: the store is left exactly as it
    was, and the branch need not even exist. *)
Theorem makeDecision_reuse_is_read_only (now repoName branch : string) (decision : Decision)
    (w : World) (found : ParsedDecision) :
  GitHub.faults w = [] ->
  observed w repoName (name decision) = Some found ->
  Number.lt (revisitProbability decision) (Fin (7 # 10)) = true ->
  run (makeDecision now repoName branch decision) w = (inr (Existing found), w).
Proof. intros Hfaults Hfound Hlow. now apply makeDecision_reuses. Qed.

Lemma makeDecision_reuse_is_read_only_witness :
  let w := snd (run (makeDecision Sample.t1 Sample.repo "requirements" Sample.postgres)
                    (Sample.world "requirements" [])) in
  run (makeDecision Sample.t2 Sample.repo "no-such-branch" (Sample.mongo (5 # 100))) w =
    (inr (Existing {| parsed_type := Some "technology-choice";
                      parsed_chosen := Some "PostgreSQL";
                      parsed_confidence := Some (Fin (17 # 20));
                      parsed_revisitProbability := Some (Fin (1 # 20)) |}), w).
Proof.
  apply (makeDecision_reuse_is_read_only Sample.t2 Sample.repo "no-such-branch"
           (Sample.mongo (5 # 100))); vm_compute; reflexivity.
Defined.

(** X21.  On a branch without [DECISIONS.log] a decision cannot be
    recorded: when the call is not answered with an existing decision it
    fails with [NotFound], and nothing is committed. *)
Theorem makeDecision_without_log (now repoName branch : string) (decision : Decision)
    (w : World) (r : GitHub.Repository) (b : GitHub.BranchState) :
  GitHub.faults w = [] ->
  GitHub.repos w !! repoName = Some r ->
  GitHub.branches r !! branch = Some b ->
  GitHub.files b !! "DECISIONS.log" = None ->
  observed w repoName (name decision) = None \/
  Number.lt (revisitProbability decision) (Fin (7 # 10)) = false ->
  run (makeDecision now repoName branch decision) w = (inl NotFound, w).
Proof.
  intros Hfaults Hrepo Hbranch Hlog Hgate.
  assert (Happend : run (appendDecision now repoName branch decision) w = (inl NotFound, w)).
  { rewrite run_appendDecision. unfold GitHub.perform. rewrite Hfaults. cbn [GitHub.serve].
    unfold GitHub.getContent. now rewrite Hrepo, Hbranch, Hlog. }
  rewrite run_makeDecision, (findDecision_observed _ _ _ Hfaults).
  destruct (observed w repoName (name decision)) as [found |]; [| exact Happend].
  destruct Hgate as [Hnone | Hhigh]; [discriminate Hnone |].
  rewrite Hhigh. exact Happend.
Qed.

Lemma makeDecision_without_log_witness :
  run (makeDecision Sample.t1 Sample.repo "main" Sample.postgres) (Sample.world "main" []) =
    (inl NotFound, Sample.world "main" []).
Proof.
  apply (makeDecision_without_log Sample.t1 Sample.repo "main" Sample.postgres
           (Sample.world "main" [])
           {| GitHub.default_branch := "main";
              GitHub.branches := {[ "main" := Sample.mainBranch;
                                    "requirements" := Sample.requirementsBranch ]} |}
           Sample.mainBranch eq_refl eq_refl eq_refl eq_refl).
  left. reflexivity.
Defined.

(** X22.  A decision recorded on the default branch is found again: after
    [makeDecision] has appended a proposal to the default branch,
    [findDecision] with the name of the proposal answers with the record
    parsed from its commit message. *)
Theorem makeDecision_then_findDecision (now repoName branch : string) (decision : Decision)
    (w w' : World) (r : GitHub.Repository) :
  GitHub.faults w = [] ->
  GitHub.repos w !! repoName = Some r ->
  GitHub.default_branch r = branch ->
  run (makeDecision now repoName branch decision) w = (inr (Made decision), w') ->
  run (findDecision repoName (name decision)) w' =
    (inr (Some (parseDecisionFromCommit (commitMessage now decision))), w').
Proof.
  intros Hfaults Hrepo Hdefault Hrun.
  assert (Hfaults' : GitHub.faults w' = []).
  { rewrite run_makeDecision, (findDecision_observed _ _ _ Hfaults) in Hrun.
    assert (Happend : forall res w2,
              run (appendDecision now repoName branch decision) w = (res, w2) ->
              GitHub.faults w2 = []).
    { intros res w2. rewrite run_appendDecision. unfold GitHub.perform. rewrite Hfaults.
      cbn [GitHub.serve].
      destruct (GitHub.getContent repoName "DECISIONS.log" branch w) as [e | file].
      - now intros [= _ <-].
      - rewrite Hfaults.
        destruct (GitHub.createOrUpdateFileContents _ _ _ _ _ _ w) as [e | w3] eqn:Hwrite.
        + now intros [= _ <-].
        + intros [= _ <-]. unfold GitHub.createOrUpdateFileContents in Hwrite.
          destruct (GitHub.repos w !! repoName); [| discriminate].
          destruct (GitHub.branches _ !! branch); [| discriminate].
          destruct (GitHub.files _ !! "DECISIONS.log"); [| discriminate].
          destruct (String.eqb _ _); [| discriminate].
          injection Hwrite as <-. exact Hfaults. }
    destruct (observed w repoName (name decision)) as [found |].
    - destruct (Number.lt _ _); [discriminate Hrun | exact (Happend _ _ Hrun)].
    - exact (Happend _ _ Hrun). }
  apply makeDecision_outcomes in Hrun
    as [[_ Habsurd] | (r0 & b & log & Hrepo0 & Hbranch & _ & _ & Hrepos)];
    [contradiction |].
  rewrite Hrepo in Hrepo0. injection Hrepo0 as <-.
  rewrite (findDecision_observed _ _ _ Hfaults').
  unfold observed, GitHub.listCommits. rewrite Hrepos, appended_repo.
  cbn [appendedRepository GitHub.default_branch]. rewrite Hdefault.
  change (GitHub.branches _ !! branch)
    with (GitHub.branches (appendedRepository r branch b now log decision) !! branch).
  rewrite appended_branch. cbn [appendedBranch GitHub.commits]. cbn [take].
  unfold firstMatch. cbn [List.find GitHub.message].
  rewrite (commitMessage_includes_prefix now (name decision) EmptyString decision).
  - reflexivity.
  - now rewrite append_empty_r.
Qed.

Lemma makeDecision_then_findDecision_witness :
  let w' := snd (run (makeDecision Sample.t1 Sample.repo "requirements" Sample.postgres)
                     (Sample.world "requirements" [])) in
  run (findDecision Sample.repo "use-database") w' =
    (inr (Some (parseDecisionFromCommit (commitMessage Sample.t1 Sample.postgres))), w').
Proof.
  apply (makeDecision_then_findDecision Sample.t1 Sample.repo "requirements" Sample.postgres
           (Sample.world "requirements" []) _
           {| GitHub.default_branch := "requirements";
              GitHub.branches := {[ "main" := Sample.mainBranch;
                                    "requirements" := Sample.requirementsBranch ]} |}).
  - reflexivity.
  - reflexivity.
  - reflexivity.
  - vm_compute. reflexivity.
Defined.

(** ** The sanitized name of the [create-idea] workflow *)

Lemma every_splitAt (p : ascii -> bool) (n : nat) (s : string) :
  JS.every p s = true -> JS.every p (fst (JS.splitAt n s)) = true.
Proof.
  revert s. induction n as [| n IH]; intros [| c r] H; try reflexivity.
  cbn [JS.splitAt]. specialize (IH r). destruct (JS.splitAt n r) as [a b].
  cbn [JS.every] in H |- *. apply andb_true_iff in H as [Hc Hr].
  cbn [fst JS.every]. rewrite Hc. exact (IH Hr).
Qed.

Lemma length_splitAt (n : nat) (s : string) :
  (String.length (fst (JS.splitAt n s)) <= n)%nat.
Proof.
  revert s. induction n as [| n IH]; intros [| c r]; cbn [JS.splitAt fst String.length]; try lia.
  specialize (IH r). destruct (JS.splitAt n r) as [a b]. cbn [fst String.length] in *. lia.
Qed.

Lemma splitAt_short (n : nat) (s : string) :
  (String.length s <= n)%nat -> fst (JS.splitAt n s) = s.
Proof.
  revert s. induction n as [| n IH]; intros [| c r] H; try reflexivity.
  - cbn [String.length] in H. lia.
  - cbn [JS.splitAt]. specialize (IH r). destruct (JS.splitAt n r) as [a b].
    cbn [fst String.length] in *. f_equal. apply IH. lia.
Qed.

Lemma prefix_splitAt (sub : string) (n : nat) (s : string) :
  String.prefix sub (fst (JS.splitAt n s)) = true -> String.prefix sub s = true.
Proof.
  revert n s. induction sub as [| a sub IH]; intros n s H; [destruct s; reflexivity |].
  destruct n as [| n], s as [| c r]; try discriminate H.
  cbn [JS.splitAt] in H. specialize (IH n r). destruct (JS.splitAt n r) as [x y].
  cbn [fst] in *. cbn [String.prefix] in H |- *.
  destruct (ascii_dec a c); [exact (IH H) | discriminate H].
Qed.

Lemma includes_splitAt (sub : string) (n : nat) (s : string) :
  JS.includes s sub = false -> JS.includes (fst (JS.splitAt n s)) sub = false.
Proof.
  revert s. induction n as [| n IH]; intros s H.
  - destruct s; cbn [JS.splitAt fst]; cbn [JS.includes] in H |- *;
      apply orb_false_iff in H as [Hp _]; destruct sub; try discriminate Hp; reflexivity.
  - destruct s as [| c r]; [exact H |].
    cbn [JS.includes] in H. apply orb_false_iff in H as [Hp Hr].
    destruct (JS.includes (fst (JS.splitAt (S n) (String c r))) sub) eqn:Hinc; [| reflexivity].
    cbn [JS.splitAt] in Hinc. specialize (IH r Hr).
    pose proof (prefix_splitAt sub (S n) (String c r)) as Hpre. cbn [JS.splitAt] in Hpre.
    destruct (JS.splitAt n r) as [x y]. cbn [fst] in *. cbn [JS.includes] in Hinc.
    apply orb_true_iff in Hinc as [Hinc | Hinc].
    + rewrite (Hpre Hinc) in Hp. discriminate Hp.
    + rewrite Hinc in IH. discriminate IH.
Qed.

Lemma every_replaceRunsFrom (q p : ascii -> bool) (by_ : ascii) (s : string) (inRun : bool) :
  q by_ = true -> JS.every q s = true ->
  JS.every q (Builtins.replaceRunsFrom inRun p by_ s) = true.
Proof.
  intros Hby. revert inRun. induction s as [| c r IH]; intros inRun H; [reflexivity |].
  cbn [JS.every] in H. apply andb_true_iff in H as [Hc Hr].
  cbn [Builtins.replaceRunsFrom]. destruct (p c); [destruct inRun |]; cbn [JS.every];
    rewrite ?Hby, ?Hc; cbn [andb]; apply IH; exact Hr.
Qed.

Lemma every_replaceEach (p : ascii -> bool) (by_ : ascii) (s : string) :
  p by_ = false ->
  JS.every (fun c => negb (p c)) (Builtins.replaceEach p by_ s) = true.
Proof.
  intros Hby. induction s as [| c r IH]; [reflexivity |].
  cbn [Builtins.replaceEach JS.every]. rewrite IH.
  destruct (p c) eqn:Hc; [rewrite Hby | rewrite Hc]; reflexivity.
Qed.

Lemma isHyphen_spec (c : ascii) : Builtins.isHyphen c = true <-> c = "-"%char.
Proof. unfold Builtins.isHyphen. apply Ascii.eqb_eq. Qed.

Lemma prefix_hyphen (c : ascii) (r : string) :
  String.prefix "-" (String c r) = Builtins.isHyphen c.
Proof.
  cbn [String.prefix]. unfold Builtins.isHyphen.
  destruct (ascii_dec "-" c) as [<- | Hne]; [destruct r; reflexivity |].
  symmetry. apply Ascii.eqb_neq. congruence.
Qed.

Lemma prefix_hyphens (c : ascii) (r : string) :
  String.prefix "--" (String c r) = Builtins.isHyphen c && String.prefix "-" r.
Proof.
  change (String.prefix "--" (String c r))
    with (if ascii_dec "-" c then String.prefix "-" r else false).
  unfold Builtins.isHyphen.
  destruct (ascii_dec "-" c) as [<- | Hne]; [reflexivity |].
  replace (Ascii.eqb c "-") with false; [reflexivity |].
  symmetry. apply Ascii.eqb_neq. congruence.
Qed.

(** After [replace(/-+/g, '-')] no two hyphens are adjacent, and a run
    that has begun leaves no hyphen in front. *)
Lemma replaceRunsFrom_hyphens (s : string) (inRun : bool) :
  JS.includes (Builtins.replaceRunsFrom inRun Builtins.isHyphen "-" s) "--" = false /\
  (inRun = true ->
   String.prefix "-" (Builtins.replaceRunsFrom inRun Builtins.isHyphen "-" s) = false).
Proof.
  revert inRun. induction s as [| c r IH]; intros inRun; [split; reflexivity |].
  cbn [Builtins.replaceRunsFrom]. destruct (Builtins.isHyphen c) eqn:Hc.
  - destruct inRun.
    + apply IH.
    + split; [| discriminate]. destruct (IH true) as [Hinc Hpre].
      cbn [JS.includes]. rewrite prefix_hyphens, Hinc, (Hpre eq_refl). reflexivity.
  - destruct (IH false) as [Hinc _]. split.
    + cbn [JS.includes]. rewrite prefix_hyphens, Hc, Hinc. reflexivity.
    + intros _. rewrite prefix_hyphen. exact Hc.
Qed.

Lemma replaceRunsFrom_unchanged (s : string) (inRun : bool) :
  JS.includes s "--" = false ->
  (inRun = true -> String.prefix "-" s = false) ->
  Builtins.replaceRunsFrom inRun Builtins.isHyphen "-" s = s.
Proof.
  revert inRun. induction s as [| c r IH]; intros inRun Hinc Hpre; [reflexivity |].
  cbn [JS.includes] in Hinc. apply orb_false_iff in Hinc as [Hpp Hr].
  rewrite prefix_hyphens in Hpp. rewrite prefix_hyphen in Hpre.
  cbn [Builtins.replaceRunsFrom]. destruct (Builtins.isHyphen c) eqn:Hc.
  - destruct inRun; [discriminate (Hpre eq_refl) |].
    apply isHyphen_spec in Hc as ->. f_equal. apply IH; [exact Hr | intros _; exact Hpp].
  - f_equal. apply IH; [exact Hr | discriminate].
Qed.

Lemma lowerChar_slug (c : ascii) : Builtins.isSlugChar c = true -> Builtins.lowerChar c = c.
Proof.
  destruct c as [[] [] [] [] [] [] [] []]; vm_compute; intros H;
    reflexivity || discriminate H.
Qed.

Lemma lowerCase_slug (s : string) :
  JS.every Builtins.isSlugChar s = true -> Builtins.lowerCase s = s.
Proof.
  induction s as [| c r IH]; [reflexivity |]. cbn [JS.every Builtins.lowerCase].
  intros H. apply andb_true_iff in H as [Hc Hr]. now rewrite (lowerChar_slug c Hc), IH.
Qed.

Lemma replaceEach_slug (s : string) :
  JS.every Builtins.isSlugChar s = true ->
  Builtins.replaceEach (fun c => negb (Builtins.isSlugChar c)) "-" s = s.
Proof.
  induction s as [| c r IH]; [reflexivity |]. cbn [JS.every Builtins.replaceEach].
  intros H. apply andb_true_iff in H as [Hc Hr]. now rewrite Hc, IH.
Qed.

Lemma sanitizedName_slug (name : string) :
  JS.every Builtins.isSlugChar (sanitizedName name) = true /\
  JS.includes (sanitizedName name) "--" = false /\
  (String.length (sanitizedName name) <= 50)%nat.
Proof.
  unfold sanitizedName, Builtins.substringTo, Builtins.replaceRuns. split; [| split].
  - apply every_splitAt, every_replaceRunsFrom; [reflexivity |].
    eapply every_impl;
      [| exact (every_replaceEach (fun c => negb (Builtins.isSlugChar c)) "-" _ eq_refl)].
    intros c Hc. now apply negb_true_iff, negb_false_iff in Hc.
  - apply includes_splitAt, replaceRunsFrom_hyphens.
  - apply length_splitAt.
Qed.

Lemma slug_unchanged (name : string) :
  JS.every Builtins.isSlugChar name = true ->
  JS.includes name "--" = false ->
  (String.length name <= 50)%nat ->
  sanitizedName name = name.
Proof.
  intros Hslug Hruns Hlen. unfold sanitizedName, Builtins.substringTo, Builtins.replaceRuns.
  rewrite (lowerCase_slug _ Hslug), (replaceEach_slug _ Hslug),
    (replaceRunsFrom_unchanged _ false Hruns); [| discriminate].
  now apply splitAt_short.
Qed.

(** X23.  The sanitized name of [validate-input] is made of lower-case
    letters, digits and hyphens only, holds no two adjacent hyphens, and
    is at most 50 code units long, whatever the name. *)
Theorem sanitizedName_shape (name : string) :
  JS.every Builtins.isSlugChar (sanitizedName name) = true /\
  JS.includes (sanitizedName name) "--" = false /\
  (String.length (sanitizedName name) <= 50)%nat.
Proof. apply sanitizedName_slug. Qed.

(** X24.  A name that already has that shape is left as it is. *)
Theorem sanitizedName_keeps_slugs (name : string) :
  JS.every Builtins.isSlugChar name = true ->
  JS.includes name "--" = false ->
  (String.length name <= 50)%nat ->
  sanitizedName name = name.
Proof. apply slug_unchanged. Qed.

Lemma sanitizedName_keeps_slugs_witness : sanitizedName "-ai-cofounder-2-" = "-ai-cofounder-2-".
Proof.
  apply (sanitizedName_keeps_slugs "-ai-cofounder-2-"); [reflexivity | reflexivity |].
  vm_compute. lia.
Defined.

(** X25.  Sanitizing is idempotent. *)
Theorem sanitizedName_idempotent (name : string) :
  sanitizedName (sanitizedName name) = sanitizedName name.
Proof.
  destruct (sanitizedName_slug name) as (Hslug & Hruns & Hlen). now apply slug_unchanged.
Qed.

(** ** The repository name of [createIdea] *)

Lemma every_append_intro (p : ascii -> bool) (a b : string) :
  JS.every p a = true -> JS.every p b = true -> JS.every p (a +:+ b) = true.
Proof. intros Ha Hb. rewrite every_append, Ha, Hb. reflexivity. Qed.

Lemma replaceRunsFrom_none_left (p : ascii -> bool) (by_ : ascii) (s : string) (inRun : bool) :
  p by_ = false ->
  JS.every (fun c => negb (p c)) (Builtins.replaceRunsFrom inRun p by_ s) = true.
Proof.
  intros Hby. revert inRun. induction s as [| c r IH]; intros inRun; [reflexivity |].
  cbn [Builtins.replaceRunsFrom]. destruct (p c) eqn:Hc; [destruct inRun |]; cbn [JS.every];
    rewrite ?Hby, ?Hc, ?IH; reflexivity.
Qed.

(** X26.  The repository name that [createIdea] builds starts with
    [idea-], ends with a hyphen and the decimal digits of the time, and
    holds no white space, whatever the name of the idea. *)
Theorem ideaRepoName_shape (name : string) (now : N) :
  JS.startsWith (ideaRepoName name now) "idea-" = true /\
  (exists middle : string, ideaRepoName name now = "idea-" +:+ middle +:+ "-" +:+ JS.digitsOf now) /\
  JS.every (fun c => negb (JS.isWhiteSpace c)) (ideaRepoName name now) = true.
Proof.
  unfold ideaRepoName. split; [| split].
  - unfold JS.startsWith. apply prefix_append.
  - eexists. reflexivity.
  - repeat apply every_append_intro; try reflexivity.
    + apply replaceRunsFrom_none_left. reflexivity.
    + eapply every_impl; [| apply digitsOf_digits].
      intros c Hc. destruct c as [[] [] [] [] [] [] [] []]; vm_compute in Hc |- *;
        reflexivity || discriminate Hc.
Qed.

(** ** The [Read file] tool and the [validate-completeness] step *)

Lemma run_readFile (errorMessage : Error -> string) (repoName stage filename : string)
    (w : World) :
  run (readFile errorMessage repoName stage filename) w =
  match GitHub.perform (GetContent repoName filename stage) w with
  | (inl e, w1) => (inr (AnalysisWorkflow.ReadFailed (errorMessage e)), w1)
  | (inr file, w1) => (inr (AnalysisWorkflow.ReadOk (GitHub.content file)), w1)
  end.
Proof.
  unfold readFile. rewrite run_catch, run_bind, run_await.
  destruct (GitHub.perform (GetContent repoName filename stage) w) as [[e | file] w1];
    reflexivity.
Qed.

(** A read never throws and leaves the repositories as they are; when it
    succeeds, the file is on the branch with the content returned. *)
Lemma readFile_outcome (errorMessage : Error -> string) (repoName stage filename : string)
    (w : World) :
  exists (r : AnalysisWorkflow.ReadResult) (w1 : World),
    run (readFile errorMessage repoName stage filename) w = (inr r, w1) /\
    GitHub.repos w1 = GitHub.repos w /\
    forall text : string,
      r = AnalysisWorkflow.ReadOk text ->
      exists b : GitHub.BranchState,
        branchState w repoName stage = Some b /\ GitHub.files b !! filename = Some text.
Proof.
  rewrite run_readFile.
  destruct (GitHub.perform (GetContent repoName filename stage) w) as [[e | file] w1] eqn:Hperform.
  - exists (AnalysisWorkflow.ReadFailed (errorMessage e)), w1.
    split; [reflexivity |]. split; [exact (perform_error_keeps_repos _ _ _ _ Hperform) |].
    discriminate.
  - exists (AnalysisWorkflow.ReadOk (GitHub.content file)), w1.
    apply perform_getContent_ok in Hperform
      as (Hrepos & r & b & text & Hrepo & Hbranch & Hfile & ->).
    split; [reflexivity |]. split; [exact Hrepos |].
    intros text' [= <-]. exists b. unfold branchState. rewrite Hrepo. split; assumption.
Qed.

Lemma branchState_repos (w w1 : World) (repoName branch : string) :
  GitHub.repos w1 = GitHub.repos w -> branchState w1 repoName branch = branchState w repoName branch.
Proof. unfold branchState. now intros ->. Qed.

(** The four reads of the step, one after the other. *)
Lemma validateAnalysis_reads (errorMessage : Error -> string) (repoName : string) (w : World) :
  exists (analysis mvp competitive risks : AnalysisWorkflow.ReadResult) (w' : World),
    run (validateAnalysis errorMessage repoName) w =
      (inr (AnalysisWorkflow.validateCompleteness analysis mvp competitive risks), w') /\
    GitHub.repos w' = GitHub.repos w /\
    forall (r : AnalysisWorkflow.ReadResult) (filename text : string),
      In (filename, r) [("ANALYSIS.md", analysis); ("MVP_DEFINITION.md", mvp);
                        ("COMPETITIVE_ANALYSIS.md", competitive);
                        ("RISK_ASSESSMENT.md", risks)] ->
      r = AnalysisWorkflow.ReadOk text ->
      exists b : GitHub.BranchState,
        branchState w repoName "analysis" = Some b /\ GitHub.files b !! filename = Some text.
Proof.
  unfold validateAnalysis.
  destruct (readFile_outcome errorMessage repoName "analysis" "ANALYSIS.md" w)
    as (analysis & w1 & Hrun1 & Hrepos1 & Hok1).
  destruct (readFile_outcome errorMessage repoName "analysis" "MVP_DEFINITION.md" w1)
    as (mvp & w2 & Hrun2 & Hrepos2 & Hok2).
  destruct (readFile_outcome errorMessage repoName "analysis" "COMPETITIVE_ANALYSIS.md" w2)
    as (competitive & w3 & Hrun3 & Hrepos3 & Hok3).
  destruct (readFile_outcome errorMessage repoName "analysis" "RISK_ASSESSMENT.md" w3)
    as (risks & w4 & Hrun4 & Hrepos4 & Hok4).
  exists analysis, mvp, competitive, risks, w4.
  rewrite run_bind, Hrun1, run_bind, Hrun2, run_bind, Hrun3, run_bind, Hrun4.
  assert (H2 : GitHub.repos w2 = GitHub.repos w) by congruence.
  assert (H3 : GitHub.repos w3 = GitHub.repos w) by congruence.
  split; [reflexivity |]. split; [congruence |].
  intros r filename text Hin Hr. cbn [In] in Hin.
  destruct Hin as [[= <- <-] | [[= <- <-] | [[= <- <-] | [[= <- <-] | []]]]].
  - exact (Hok1 text Hr).
  - rewrite <- (branchState_repos w w1 repoName "analysis" Hrepos1). exact (Hok2 text Hr).
  - rewrite <- (branchState_repos w w2 repoName "analysis" H2). exact (Hok3 text Hr).
  - rewrite <- (branchState_repos w w3 repoName "analysis" H3). exact (Hok4 text Hr).
Qed.

(** X27.  The [validate-completeness] step of the analysis workflow never
    throws, whatever the store answers: each failed read is turned into a
    result by the tool, the step returns a verdict, and the repositories
    are as before. *)
Theorem validateAnalysis_never_throws (errorMessage : Error -> string) (repoName : string)
    (w : World) :
  exists (v : AnalysisWorkflow.Validation) (w' : World),
    run (validateAnalysis errorMessage repoName) w = (inr v, w') /\
    GitHub.repos w' = GitHub.repos w.
Proof.
  destruct (validateAnalysis_reads errorMessage repoName w)
    as (analysis & mvp & competitive & risks & w' & Hrun & Hrepos & _).
  eexists _, w'. split; [exact Hrun | exact Hrepos].
Qed.

(** X28.  When one of the four deliverables is not on the [analysis]
    branch, the verdict of the step is incomplete, with the flag of that
    deliverable off and the fixed reason. *)
Theorem validateAnalysis_missing_deliverable (errorMessage : Error -> string)
    (repoName filename : string) (w w' : World) (v : AnalysisWorkflow.Validation) :
  In filename ["ANALYSIS.md"; "MVP_DEFINITION.md"; "COMPETITIVE_ANALYSIS.md";
               "RISK_ASSESSMENT.md"] ->
  (forall b : GitHub.BranchState,
     branchState w repoName "analysis" = Some b -> GitHub.files b !! filename = None) ->
  run (validateAnalysis errorMessage repoName) w = (inr v, w') ->
  AnalysisWorkflow.complete v = false /\
  (AnalysisWorkflow.hasAnalysis v && AnalysisWorkflow.hasMVP v &&
   AnalysisWorkflow.hasCompetitive v && AnalysisWorkflow.hasRisks v) = false /\
  AnalysisWorkflow.reason v = "Incomplete analysis - need more depth".
Proof.
  intros Hin Hmissing Hrun.
  destruct (validateAnalysis_reads errorMessage repoName w)
    as (analysis & mvp & competitive & risks & w1 & Hrun1 & _ & Hok).
  rewrite Hrun1 in Hrun. injection Hrun as <- _.
  assert (Hfailed : forall r, In (filename, r)
                      [("ANALYSIS.md", analysis); ("MVP_DEFINITION.md", mvp);
                       ("COMPETITIVE_ANALYSIS.md", competitive);
                       ("RISK_ASSESSMENT.md", risks)] ->
                    forall test, AnalysisWorkflow.successAnd r test = false).
  { intros r Hr test. destruct r as [text | e]; [| reflexivity].
    destruct (Hok _ _ text Hr eq_refl) as (b & Hb & Hfile).
    rewrite (Hmissing b Hb) in Hfile. discriminate Hfile. }
  assert (Hflags : (AnalysisWorkflow.hasAnalysis
                      (AnalysisWorkflow.validateCompleteness analysis mvp competitive risks) &&
                    AnalysisWorkflow.hasMVP
                      (AnalysisWorkflow.validateCompleteness analysis mvp competitive risks) &&
                    AnalysisWorkflow.hasCompetitive
                      (AnalysisWorkflow.validateCompleteness analysis mvp competitive risks) &&
                    AnalysisWorkflow.hasRisks
                      (AnalysisWorkflow.validateCompleteness analysis mvp competitive risks))
                   = false).
  { cbn [AnalysisWorkflow.validateCompleteness AnalysisWorkflow.hasAnalysis
         AnalysisWorkflow.hasMVP AnalysisWorkflow.hasCompetitive AnalysisWorkflow.hasRisks].
    cbn [In] in Hin. destruct Hin as [<- | [<- | [<- | [<- | []]]]].
    - rewrite (Hfailed analysis); [reflexivity | cbn [In]; tauto].
    - rewrite (Hfailed mvp); [apply andb_false_iff; left; apply andb_false_iff; left;
                               apply andb_false_r | cbn [In]; tauto].
    - rewrite (Hfailed competitive); [apply andb_false_iff; left; apply andb_false_r
                                     | cbn [In]; tauto].
    - rewrite (Hfailed risks); [apply andb_false_r | cbn [In]; tauto]. }
  assert (Hcomplete : AnalysisWorkflow.complete
                        (AnalysisWorkflow.validateCompleteness analysis mvp competitive risks)
                      = false).
  { cbn [AnalysisWorkflow.validateCompleteness AnalysisWorkflow.complete
         AnalysisWorkflow.hasAnalysis AnalysisWorkflow.hasMVP AnalysisWorkflow.hasCompetitive
         AnalysisWorkflow.hasRisks] in Hflags |- *.
    rewrite Hflags. reflexivity. }
  split; [exact Hcomplete |]. split; [exact Hflags |].
  cbn [AnalysisWorkflow.validateCompleteness AnalysisWorkflow.complete
       AnalysisWorkflow.reason] in Hcomplete |- *.
  rewrite Hcomplete. reflexivity.
Qed.

Lemma validateAnalysis_missing_deliverable_witness :
  let v := AnalysisWorkflow.validateCompleteness
             (AnalysisWorkflow.ReadFailed "Not Found") (AnalysisWorkflow.ReadFailed "Not Found")
             (AnalysisWorkflow.ReadFailed "Not Found") (AnalysisWorkflow.ReadFailed "Not Found") in
  AnalysisWorkflow.complete v = false /\
  (AnalysisWorkflow.hasAnalysis v && AnalysisWorkflow.hasMVP v &&
   AnalysisWorkflow.hasCompetitive v && AnalysisWorkflow.hasRisks v) = false /\
  AnalysisWorkflow.reason v = "Incomplete analysis - need more depth".
Proof.
  apply (validateAnalysis_missing_deliverable Sample2.errorMessage Sample.repo "MVP_DEFINITION.md"
           (Sample.world "main" []) (Sample.world "main" [])).
  - cbn [In]. tauto.
  - intros b Hb. vm_compute in Hb. discriminate Hb.
  - vm_compute. reflexivity.
Defined.

(** ** The body of the pull request *)

Lemma includes_skip (a s sub : string) :
  JS.includes s sub = true -> JS.includes (a +:+ s) sub = true.
Proof.
  intros H. induction a as [| c a IH]; [exact H |].
  rewrite append_cons. cbn [JS.includes]. rewrite IH. apply orb_true_r.
Qed.

(** X29.  When the content handed to [createStagePR] carries no
    [decisions], the optional chain yields [undefined] and the body of the
    pull request reads [undefined] under [Decisions Made], whatever the
    stages and the summary. *)
Theorem generatePRBody_without_decisions (repoName from to : string)
    (summary : option string) :
  JS.includes
    (PullRequest.body
       (createStagePR repoName from to
          {| PullRequest.summary := summary; PullRequest.decisions := None |}))
    ("### Decisions Made" +:+ NL +:+ NL +:+ "undefined" +:+ NL) = true.
Proof.
  unfold createStagePR, generatePRBody.
  cbn [PullRequest.body PullRequest.summary PullRequest.decisions option_map].
  do 12 apply includes_skip.
  match goal with
  | |- JS.includes (_ +:+ _ +:+ _ +:+ _ +:+ _ +:+ ?rest) _ = true =>
      exact (includes_append ("### Decisions Made" +:+ NL +:+ NL +:+ "undefined" +:+ NL) rest)
  end.
Qed.
